(** * Listing cache, render dispatch and helpers of the website project type

    A shallow embedding of

    - [src/core/jupyter/preserve.ts] ([restorePreservedHtml]),
    - [puppeteer.ts] (the retry loops of
      [withPuppeteerBrowserAndPage] and [inPuppeteer]),
    - [src/project/types/website/listing/website-listing.ts]
      ([listingSupplementalFiles], [listingHtmlDependencies],
      [markdownHandler], [listingPostProcess] and the post processor),

    with the properties the specification states about them. *)

From Stdlib Require Import ZArith String Ascii List Lia.
From stdpp Require Import gmap strings list pretty.

Local Open Scope Z_scope.

(** ** JavaScript strings

    A string is a sequence of code units; [indexOf] and [slice] follow
    ECMAScript's [String.prototype.indexOf] and [String.prototype.slice]. *)
Module JsString.

(** [hay.indexOf(needle)], searched from position [i] of the original
    string: the first position at which [needle] starts, or [-1]. *)
Fixpoint indexOfFrom (needle hay : string) (i : Z) {struct hay} : Z :=
  if String.prefix needle hay then i
  else match hay with
       | EmptyString => -1
       | String _ hay' => indexOfFrom needle hay' (i + 1)
       end.

Definition indexOf (hay needle : string) : Z := indexOfFrom needle hay 0.

(** [hay.includes(needle)]. *)
Definition includes (hay needle : string) : bool :=
  negb (indexOf hay needle =? -1).

(** A relative index of [slice]: negative indices count from the end,
    and everything is clamped to [0 .. len]. *)
Definition relativeIndex (len i : Z) : Z :=
  if i <? 0 then Z.max (len + i) 0 else Z.min i len.

(** [s.slice(start, end)]; [end_ = None] is the one-argument form. *)
Definition slice (s : string) (start : Z) (end_ : option Z) : string :=
  let len := Z.of_nat (String.length s) in
  let from := relativeIndex len start in
  let to := match end_ with
            | None => len
            | Some e => relativeIndex len e
            end in
  substring (Z.to_nat from) (Z.to_nat (Z.max (to - from) 0)) s.

(** [key] occurs in [s] between [pre] and [post], and nowhere earlier. *)
Definition FirstOccurrence (key s pre post : string) : Prop :=
  s = pre +:+ key +:+ post ∧
  ∀ pre' post', s = pre' +:+ key +:+ post' →
                (String.length pre ≤ String.length pre')%nat.

(** [key] occurs somewhere in [s]. *)
Definition Occurs (key s : string) : Prop :=
  ∃ pre post, s = pre +:+ key +:+ post.

Lemma append_cons (c : ascii) (a b : string) :
  String c a +:+ b = String c (a +:+ b).
Proof. reflexivity. Qed.

Lemma append_nil_l (b : string) : "" +:+ b = b.
Proof. reflexivity. Qed.

Lemma append_nil_r (s : string) : s +:+ "" = s.
Proof.
  induction s as [|c s IH]; [done |]. by rewrite append_cons, IH.
Qed.

Lemma append_assoc (a b c : string) : (a +:+ b) +:+ c = a +:+ b +:+ c.
Proof.
  induction a as [|x a IH]; [done |]. by rewrite !append_cons, IH.
Qed.

Lemma length_append (a b : string) :
  String.length (a +:+ b) = (String.length a + String.length b)%nat.
Proof.
  induction a as [|x a IH]; [done |].
  rewrite append_cons. cbn [String.length]. lia.
Qed.

Lemma prefix_append (k s : string) : String.prefix k (k +:+ s) = true.
Proof.
  induction k as [|c k IH]; [by destruct s |].
  rewrite append_cons. cbn [String.prefix].
  destruct (ascii_dec c c); [apply IH | done].
Qed.

Lemma prefix_inv (k s : string) :
  String.prefix k s = true → ∃ post, s = k +:+ post.
Proof.
  revert s. induction k as [|c k IH]; intros s H.
  - by exists s.
  - destruct s as [|d s]; cbn [String.prefix] in H; [done |].
    destruct (ascii_dec c d) as [->|]; [|done].
    destruct (IH _ H) as [post ->]. by exists post.
Qed.

Lemma substring_0_append (a b : string) :
  substring 0 (String.length a) (a +:+ b) = a.
Proof.
  induction a as [|x a IH]; [by destruct b |].
  rewrite append_cons. cbn [String.length substring]. by rewrite IH.
Qed.

Lemma substring_all (s : string) : substring 0 (String.length s) s = s.
Proof.
  induction s as [|x s IH]; [done |].
  cbn [String.length substring]. by rewrite IH.
Qed.

Lemma substring_skip_append (a b : string) (n : nat) :
  substring (String.length a) n (a +:+ b) = substring 0 n b.
Proof.
  induction a as [|x a IH]; [done |].
  rewrite append_cons. cbn [String.length substring]. apply IH.
Qed.

(** The result of a search is [-1] or a position at or after the start. *)
Lemma indexOfFrom_range (needle hay : string) (i : Z) :
  indexOfFrom needle hay i = -1 ∨ i ≤ indexOfFrom needle hay i.
Proof.
  revert i. induction hay as [|c hay IH]; intros i; cbn [indexOfFrom].
  - destruct (String.prefix needle ""); [right; lia | by left].
  - destruct (String.prefix needle (String c hay)); [right; lia |].
    destruct (IH (i + 1)) as [->|Hle]; [by left | right; lia].
Qed.

(** Where the needle is a prefix, the search stops at once. *)
Lemma indexOfFrom_prefix (needle hay : string) (i : Z) :
  String.prefix needle hay = true → indexOfFrom needle hay i = i.
Proof. intros H. destruct hay; cbn [indexOfFrom]; by rewrite H. Qed.

(** A first occurrence is what the search finds. *)
Lemma indexOfFrom_first (key pre post : string) (i : Z) :
  FirstOccurrence key (pre +:+ key +:+ post) pre post →
  indexOfFrom key (pre +:+ key +:+ post) i = i + Z.of_nat (String.length pre).
Proof.
  revert i. induction pre as [|c pre IH]; intros i [_ Hmin].
  - rewrite append_nil_l, indexOfFrom_prefix by apply prefix_append.
    cbn [String.length]. lia.
  - rewrite append_cons. cbn [String.length indexOfFrom].
    destruct (String.prefix key (String c (pre +:+ key +:+ post))) eqn:Hp.
    + exfalso. destruct (prefix_inv _ _ Hp) as [post' Hpost'].
      specialize (Hmin "" post'). rewrite append_cons, append_nil_l in Hmin.
      specialize (Hmin Hpost'). cbn [String.length] in Hmin. lia.
    + rewrite IH; [lia |].
      split; [done |]. intros pre' post' E.
      specialize (Hmin (String c pre') post').
      rewrite !append_cons, <- E in Hmin. specialize (Hmin eq_refl).
      cbn [String.length] in Hmin. lia.
Qed.

(** Where the key occurs, the search does not fail. *)
Lemma indexOfFrom_occurs (key pre post : string) (i : Z) :
  0 ≤ i → 0 ≤ indexOfFrom key (pre +:+ key +:+ post) i.
Proof.
  revert i. induction pre as [|c pre IH]; intros i Hi.
  - by rewrite append_nil_l, indexOfFrom_prefix by apply prefix_append.
  - rewrite append_cons. cbn [indexOfFrom].
    destruct (String.prefix key _); [lia | apply IH; lia].
Qed.

(** The search never passes an occurrence. *)
Lemma indexOfFrom_le (key pre post : string) (i : Z) :
  indexOfFrom key (pre +:+ key +:+ post) i ≤ i + Z.of_nat (String.length pre).
Proof.
  revert i. induction pre as [|c pre IH]; intros i.
  - rewrite append_nil_l, indexOfFrom_prefix by apply prefix_append. lia.
  - rewrite append_cons. cbn [indexOfFrom String.length].
    destruct (String.prefix key _); [lia |].
    specialize (IH (i + 1)). lia.
Qed.

(** Conversely, the position found by the search is a first occurrence. *)
Lemma FirstOccurrence_indexOf (key s pre post : string) :
  s = pre +:+ key +:+ post →
  indexOf s key = Z.of_nat (String.length pre) →
  FirstOccurrence key s pre post.
Proof.
  intros Hs Hloc. split; [done |]. intros pre' post' Hs'.
  pose proof (indexOfFrom_le key pre' post' 0) as Hle.
  unfold indexOf in Hloc. rewrite <- Hs', Hloc in Hle. lia.
Qed.

Lemma includes_false_not_occurs (hay needle : string) :
  includes hay needle = false → ¬ Occurs needle hay.
Proof.
  unfold includes, indexOf. intros H [pre [post ->]].
  pose proof (indexOfFrom_occurs needle pre post 0 ltac:(lia)) as Hge.
  destruct (Z.eqb_spec (indexOfFrom needle (pre +:+ needle +:+ post) 0) (-1));
    [lia | done].
Qed.

Lemma slice_prefix (pre rest : string) :
  slice (pre +:+ rest) 0 (Some (Z.of_nat (String.length pre))) = pre.
Proof.
  unfold slice, relativeIndex. rewrite length_append.
  replace (0 <? 0) with false by done.
  destruct (Z.ltb_spec (Z.of_nat (String.length pre)) 0); [lia |].
  replace (Z.to_nat (Z.min 0 _)) with 0%nat by lia.
  replace (Z.to_nat _) with (String.length pre) by lia.
  apply substring_0_append.
Qed.

Lemma slice_suffix (pre rest : string) :
  slice (pre +:+ rest) (Z.of_nat (String.length pre)) None = rest.
Proof.
  unfold slice, relativeIndex. rewrite length_append.
  destruct (Z.ltb_spec (Z.of_nat (String.length pre)) 0); [lia |].
  replace (Z.to_nat (Z.min _ _)) with (String.length pre) by lia.
  replace (Z.to_nat (Z.max _ 0)) with (String.length rest) by lia.
  rewrite substring_skip_append. apply substring_all.
Qed.

End JsString.

(** ** [src/core/jupyter/preserve.ts] *)
Module Preserve.
Import JsString.

(** A [Record<string, string>]: the entries of the object, in the order
    in which [Object.keys] enumerates them. *)
Definition objectKeys (o : list (string * string)) : list string := o.*1.

(** [o[key]]: the value stored under [key], if any. *)
Fixpoint objectGet (o : list (string * string)) (key : string) : option string :=
  match o with
  | [] => None
  | (k, v) :: o' => if decide (k = key) then Some v else objectGet o' key
  end.

(** String concatenation with a property that may be [undefined]. *)
Definition concatOperand (v : option string) : string :=
  match v with
  | Some s => s
  | None => "undefined"
  end.

(** The body of the [forEach] callback: [html] after the substitution
    of one key. *)
Definition restoreKey (preserve : list (string * string))
    (html key : string) : string :=
  let keyLoc := indexOf html key in
  slice html 0 (Some keyLoc) +:+ concatOperand (objectGet preserve key) +:+
  slice html (keyLoc + Z.of_nat (String.length key)) None.

Definition restorePreservedHtml (html : string)
    (preserve : option (list (string * string))) : string :=
  match preserve with
  | Some p => fold_left (restoreKey p) (objectKeys p) html
  | None => html
  end.

(** *** The two readings of "the first occurrence of each key replaced" *)

(** Replacement of a span located at [loc] in [html]. *)
Definition replaceAt (html : string) (occ : Z * string * string) : string :=
  let '(loc, key, fragment) := occ in
  slice html 0 (Some loc) +:+ fragment +:+
  slice html (loc + Z.of_nat (String.length key)) None.

(** Occurrences ordered from the rightmost to the leftmost. *)
Fixpoint insertOccurrence (occ : Z * string * string)
    (l : list (Z * string * string)) : list (Z * string * string) :=
  match l with
  | [] => [occ]
  | o :: l' => if o.1.1 <=? occ.1.1 then occ :: l
               else o :: insertOccurrence occ l'
  end.

(** The statement read on the given [html]: every key is located in
    [html] itself (its first occurrence there), and all those spans are
    replaced by the fragments, the rightmost first so that the spans on
    its left keep their positions. *)
Definition replaceFirstOccurrences (html : string)
    (preserve : list (string * string)) : string :=
  let located := (λ e : string * string, (indexOf html e.1, e.1, e.2)) <$> preserve in
  fold_left replaceAt (foldr insertOccurrence [] located) html.

(** The statement read key after key: every key is replaced at its first
    occurrence in the text as the earlier substitutions left it. *)
Inductive SeqReplaced : list (string * string) → string → string → Prop :=
| SeqReplaced_nil (s : string) : SeqReplaced [] s s
| SeqReplaced_cons (key fragment : string) (rest : list (string * string))
    (s pre post r : string) :
    FirstOccurrence key s pre post →
    SeqReplaced rest (pre +:+ fragment +:+ post) r →
    SeqReplaced ((key, fragment) :: rest) s r.

Example restore_one :
  restorePreservedHtml "<p>preserve1f</p>" (Some [("preserve1f", "<b>x</b>")])
  = "<p><b>x</b></p>".
Proof. reflexivity. Qed.

Example restore_two :
  restorePreservedHtml "a K1 b K2 c K1" (Some [("K2", "two"); ("K1", "one")])
  = "a one b two c K1".
Proof. reflexivity. Qed.

Example restore_missing_key :
  restorePreservedHtml "abcd" (Some [("zz", "!")]) = "abc!bcd".
Proof. reflexivity. Qed.

Lemma objectGet_NoDup (o : list (string * string)) (k v : string) :
  NoDup (objectKeys o) → (k, v) ∈ o → objectGet o k = Some v.
Proof.
  unfold objectKeys. induction o as [|[k' v'] o IH]; intros Hnd Hin.
  - by apply elem_of_nil in Hin.
  - apply NoDup_cons in Hnd as [Hk' Hnd]. cbn [objectGet].
    apply elem_of_cons in Hin as [[= -> ->]|Hin].
    + by rewrite decide_True.
    + rewrite decide_False; [by apply IH |].
      intros ->. apply Hk'. by apply (list_elem_of_fmap_2 fst) in Hin.
Qed.

(** One step of the loop replaces the first occurrence of the key. *)
Lemma restoreKey_first (p : list (string * string))
    (key fragment s pre post : string) :
  objectGet p key = Some fragment →
  FirstOccurrence key s pre post →
  restoreKey p s key = pre +:+ fragment +:+ post.
Proof.
  intros Hget Hfirst. pose proof Hfirst as [-> _]. unfold restoreKey, indexOf.
  rewrite indexOfFrom_first by done. rewrite Hget. cbn [concatOperand].
  rewrite Z.add_0_l, slice_prefix. do 2 f_equal.
  rewrite <- Nat2Z.inj_add, <- length_append.
  rewrite <- (append_assoc pre key post). apply slice_suffix.
Qed.

Lemma fold_restoreKey_SeqReplaced (p q : list (string * string))
    (html r : string) :
  (∀ k v, (k, v) ∈ q → objectGet p k = Some v) →
  SeqReplaced q html r →
  fold_left (restoreKey p) (objectKeys q) html = r.
Proof.
  intros Hget Hseq. induction Hseq as [|key fragment rest s pre post r Hocc _ IH].
  - done.
  - cbn [objectKeys fmap list_fmap fold_left fst].
    rewrite (restoreKey_first p key fragment s pre post).
    + apply IH. intros k v Hin. apply Hget. apply elem_of_cons. by right.
    + apply Hget. apply elem_of_cons. by left.
    + done.
Qed.

(** C10, as amended.  Without a preserve map the text is returned as it
    is.  With a map of distinct keys, the keys are substituted one after
    the other in the order of [Object.keys]: when every key occurs, at
    its turn, in the text as the earlier substitutions left it, the
    result is the text in which each key was replaced once, at its first
    occurrence in that text, by its fragment. *)
Theorem restorePreservedHtml_sequential
    (html : string) (p : list (string * string)) (r : string) :
  NoDup (objectKeys p) →
  SeqReplaced p html r →
  restorePreservedHtml html None = html ∧
  restorePreservedHtml html (Some p) = r.
Proof.
  intros Hnd Hseq. split; [done |]. cbn [restorePreservedHtml].
  apply fold_restoreKey_SeqReplaced; [|done].
  intros k v Hin. by apply objectGet_NoDup.
Qed.

Lemma restorePreservedHtml_sequential_witness :
  let html := "a K1 b K2 c K1" in
  let p := [("K2", "two"); ("K1", "one")] in
  NoDup (objectKeys p) ∧ SeqReplaced p html "a one b two c K1" ∧
  restorePreservedHtml html None = html ∧
  restorePreservedHtml html (Some p) = "a one b two c K1".
Proof.
  assert (Hnd : NoDup (objectKeys [("K2", "two"); ("K1", "one")]))
    by (compute_done).
  assert (Hseq : SeqReplaced [("K2", "two"); ("K1", "one")]
                   "a K1 b K2 c K1" "a one b two c K1").
  { apply (SeqReplaced_cons "K2" "two" _ _ "a K1 b " " c K1").
    { apply FirstOccurrence_indexOf; reflexivity. }
    apply (SeqReplaced_cons "K1" "one" _ _ "a " " b two c K1").
    { apply FirstOccurrence_indexOf; reflexivity. }
    apply SeqReplaced_nil. }
  split; [exact Hnd |]. split; [exact Hseq |].
  exact (restorePreservedHtml_sequential _ _ _ Hnd Hseq).
Defined.

(** C10 as stated fails.  (1) A fragment may contain a later key: that
    key is then replaced inside the fragment, and its own occurrence in
    [html] stays.  (2) Two keys may overlap in [html]: once the first is
    substituted the second occurs no more, and the text is cut at
    position [-1]. *)
Lemma restorePreservedHtml_first_occurrences_counterexample :
  (let html := "k1 k2" in
   let p := [("k1", "k2!"); ("k2", "x")] in
   NoDup (objectKeys p) ∧ (∀ k, k ∈ objectKeys p → Occurs k html) ∧
   restorePreservedHtml html (Some p) = "x! k2" ∧
   replaceFirstOccurrences html p = "k2! x" ∧
   restorePreservedHtml html (Some p) ≠ replaceFirstOccurrences html p) ∧
  (let html := "abc" in
   let p := [("ab", "X"); ("bc", "Y")] in
   NoDup (objectKeys p) ∧ (∀ k, k ∈ objectKeys p → Occurs k html) ∧
   restorePreservedHtml html (Some p) = "XYc" ∧
   restorePreservedHtml html (Some p) ≠ replaceFirstOccurrences html p ∧
   ¬ ∃ r, SeqReplaced p html r).
Proof.
  split; cbv zeta.
  - split; [compute_done |].
    split.
    { intros k Hk. cbn in Hk.
      apply elem_of_cons in Hk as [->|Hk]; [by exists "", " k2" |].
      apply list_elem_of_singleton in Hk as ->. by exists "k1 ", "". }
    split; [reflexivity |]. split; [reflexivity |]. vm_compute. discriminate.
  - split; [compute_done |].
    split.
    { intros k Hk. cbn in Hk.
      apply elem_of_cons in Hk as [->|Hk]; [by exists "", "c" |].
      apply list_elem_of_singleton in Hk as ->. by exists "a", "". }
    split; [reflexivity |]. split; [vm_compute; discriminate |].
    intros [r Hseq].
    inversion Hseq as [|key fragment rest s pre post r' Hfirst Hrest]; subst.
    destruct Hfirst as [Heq Hmin].
    specialize (Hmin "" "c" eq_refl).
    destruct pre as [|c pre]; [|cbn [String.length] in Hmin; lia].
    rewrite append_nil_l in Heq.
    apply (inj (String.app "ab")) in Heq as <-.
    inversion Hrest as [|key fragment rest s pre post r'' [Hocc _] _]; subst.
    apply (includes_false_not_occurs "Xc" "bc"); [reflexivity |].
    by exists pre, post.
Qed.

End Preserve.

(** ** [puppeteer.ts]: the retry loops *)
Module Puppeteer.
Local Open Scope nat_scope.

Record JsError := { name : string; message : string }.

Definition allowedErrorMessages : list string :=
  [ "Navigation failed because browser has disconnected!";
    "Navigation timeout of 30000 ms exceeded";
    "Evaluation failed: undefined" ].

Definition maxAttempts : nat := 5.

(** [allowedErrorMessages.indexOf(error.message) !== -1] *)
Definition isAllowed (error : JsError) : bool :=
  bool_decide (message error ∈ allowedErrorMessages).

(** What one session of the headless browser does: [fn] runs to its end,
    or [fetchBrowser] finds no browser and [withHeadlessBrowser] returns
    without running [fn], or something in the session throws. *)
Inductive Attempt :=
| Finished
| NoBrowser
| Throws (error : JsError).

(** How the body of the [try] block ends. *)
Inductive TryResult :=
| Return
| FallThrough
| Throw (error : JsError).

Inductive Completion :=
| Returned
| Thrown (error : JsError).

(** A run of the loop: how it ended, how many sessions it started, and
    what it wrote to the console. *)
Record Run := {
  completion : Completion;
  attemptsMade : nat;
  consoleLog : list string
}.

Definition retryMessage (error : JsError) (attempts : nat) : string :=
  String "010" "Encountered a bad error message from puppeteer: " +:+
  String "034" (message error) +:+ String "034" (String "010" " Retrying ") +:+
  pretty attempts +:+ "/" +:+ pretty maxAttempts.

Definition internalError : JsError :=
  {| name := "Error";
     message := "Internal Error - shouldn't have arrived here." |}.

(** [while (attempts++ < maxAttempts) { try { ... } catch (error) { ... } }]
    followed by the final [throw].  Both functions have this loop; they
    differ in the body of the [try].  Every iteration increments
    [attempts], so [S maxAttempts] units of fuel are enough
    ([retryLoop_total]). *)
Fixpoint retryLoop (fuel : nat) (body : nat → TryResult)
    (attempts : nat) (log : list string) : option Run :=
  match fuel with
  | O => None
  | S fuel' =>
      if attempts <? maxAttempts then
        let attempts := S attempts in
        match body attempts with
        | Return =>
            Some {| completion := Returned; attemptsMade := attempts;
                    consoleLog := log |}
        | FallThrough => retryLoop fuel' body attempts log
        | Throw error =>
            if isAllowed error && (attempts <? maxAttempts)
            then retryLoop fuel' body attempts
                   (log ++ [retryMessage error attempts])
            else Some {| completion := Thrown error; attemptsMade := attempts;
                         consoleLog := log |}
        end
      else Some {| completion := Thrown internalError;
                   attemptsMade := attempts; consoleLog := log |}
  end.

(** The [try] body of [withPuppeteerBrowserAndPage]: it returns only
    when [finished] was set. *)
Definition withPuppeteerBody (env : nat → Attempt) (attempts : nat) : TryResult :=
  match env attempts with
  | Finished => Return
  | NoBrowser => FallThrough
  | Throws error => Throw error
  end.

(** The [try] body of [inPuppeteer]: [return await withHeadlessBrowser(...)]. *)
Definition inPuppeteerBody (env : nat → Attempt) (attempts : nat) : TryResult :=
  match env attempts with
  | Finished | NoBrowser => Return
  | Throws error => Throw error
  end.

(** [env n] is what the [n]-th session does, [n = 1, 2, ...]. *)
Definition withPuppeteerBrowserAndPage (env : nat → Attempt) : option Run :=
  retryLoop (S maxAttempts) (withPuppeteerBody env) 0 [].

Definition inPuppeteer (env : nat → Attempt) : option Run :=
  retryLoop (S maxAttempts) (inPuppeteerBody env) 0 [].

(** The console lines of the attempts [1 .. k - 1]. *)
Definition retryLog (env : nat → Attempt) (k : nat) : list string :=
  flat_map (λ j, match env j with
                 | Throws error => [retryMessage error j]
                 | _ => []
                 end) (seq 1 (k - 1)).

Example retry_then_finish :
  let transient := {| name := "Error"; message := "Evaluation failed: undefined" |} in
  withPuppeteerBrowserAndPage
    (λ n, if decide (n = 1) then Throws transient else Finished)
  = Some {| completion := Returned; attemptsMade := 2;
            consoleLog := [retryMessage transient 1] |}.
Proof. reflexivity. Qed.

Example no_browser_five_times :
  withPuppeteerBrowserAndPage (λ _, NoBrowser)
  = Some {| completion := Thrown internalError; attemptsMade := 5;
            consoleLog := [] |}.
Proof. reflexivity. Qed.

(** An attempt after which the loop goes on. *)
Definition Retried (r : TryResult) (j : nat) : Prop :=
  r = FallThrough ∨
  ∃ error, r = Throw error ∧ isAllowed error = true ∧ j < maxAttempts.

Definition retryLogOf (r : TryResult) (j : nat) : list string :=
  match r with
  | Throw error => [retryMessage error j]
  | _ => []
  end.

(** [n] retried attempts in a row move the loop from [attempts = a] to
    [attempts = a + n]. *)
Lemma retryLoop_skip (n fuel : nat) (body : nat → TryResult)
    (a : nat) (log : list string) :
  a + n ≤ maxAttempts →
  (∀ j, a < j ≤ a + n → Retried (body j) j) →
  retryLoop (n + fuel) body a log =
  retryLoop fuel body (a + n)
    (log ++ flat_map (λ j, retryLogOf (body j) j) (seq (S a) n)).
Proof.
  revert a log. induction n as [|n IH]; intros a log Hle Hretried.
  - cbn [seq flat_map]. by rewrite Nat.add_0_r, app_nil_r.
  - replace (S n + fuel) with (S (n + fuel)) by lia. cbn [retryLoop].
    destruct (Nat.ltb_spec a maxAttempts) as [_|Hge]; [|lia].
    replace (a + S n) with (S a + n) by lia.
    cbn [seq flat_map].
    destruct (Hretried (S a) ltac:(lia)) as [Hb|(error & Hb & Hallow & Hlt)];
      rewrite Hb; cbn [retryLogOf].
    + rewrite IH; [done | lia |]. intros j Hj. apply Hretried. lia.
    + rewrite Hallow. cbn [andb].
      destruct (Nat.ltb_spec (S a) maxAttempts) as [_|Hge]; [|lia].
      rewrite IH; [|lia|].
      * by rewrite <- app_assoc.
      * intros j Hj. apply Hretried. lia.
Qed.

(** The loop ends, and with [attempts] between where it started and
    [maxAttempts]; where an attempt is left, it is made. *)
Lemma retryLoop_total (fuel : nat) (body : nat → TryResult)
    (a : nat) (log : list string) :
  a ≤ maxAttempts → maxAttempts - a < fuel →
  ∃ run, retryLoop fuel body a log = Some run ∧
         a ≤ attemptsMade run ≤ maxAttempts ∧
         (a < maxAttempts → a < attemptsMade run).
Proof.
  revert a log. induction fuel as [|fuel IH]; intros a log Ha Hfuel; [lia |].
  cbn [retryLoop].
  destruct (Nat.ltb_spec a maxAttempts) as [Hlt|Hge].
  - assert (Hnext : ∀ log', ∃ run,
               retryLoop fuel body (S a) log' = Some run ∧
               a ≤ attemptsMade run ≤ maxAttempts ∧
               (a < maxAttempts → a < attemptsMade run)).
    { intros log'. destruct (IH (S a) log') as (run & Hrun & Hbound & _);
        [lia | lia |]. exists run. split; [done |]. lia. }
    destruct (body (S a)) as [| |error].
    + eexists. split; [done |]. cbn. lia.
    + apply Hnext.
    + destruct (isAllowed error && (S a <? maxAttempts)).
      * apply Hnext.
      * eexists. split; [done |]. cbn. lia.
  - eexists. split; [done |]. cbn. lia.
Qed.

(** An error at attempt [k], after [k - 1] retried attempts, that is not
    allow-listed or comes at the last attempt is thrown on. *)
Lemma retryLoop_rethrows (body : nat → TryResult) (k : nat) (error : JsError) :
  1 ≤ k ≤ maxAttempts →
  (∀ j, 1 ≤ j < k → Retried (body j) j) →
  body k = Throw error →
  isAllowed error = false ∨ k = maxAttempts →
  retryLoop (S maxAttempts) body 0 [] =
  Some {| completion := Thrown error; attemptsMade := k;
          consoleLog := flat_map (λ j, retryLogOf (body j) j) (seq 1 (k - 1)) |}.
Proof.
  intros Hk Hretried Hbody Hstop.
  replace (S maxAttempts) with ((k - 1) + S (S maxAttempts - k)) by lia.
  rewrite retryLoop_skip; [|lia|intros j Hj; apply Hretried; lia].
  cbn [retryLoop app]. replace (0 + (k - 1)) with (k - 1) by lia.
  destruct (Nat.ltb_spec (k - 1) maxAttempts) as [_|Hge]; [|lia].
  replace (S (k - 1)) with k by lia. rewrite Hbody.
  destruct Hstop as [->| ->]; [done |].
  by rewrite Nat.ltb_irrefl, andb_false_r.
Qed.

(** An allow-listed error before the last attempt is followed by a
    further attempt. *)
Lemma retryLoop_retries (body : nat → TryResult) (k : nat) :
  k < maxAttempts →
  (∀ j, 1 ≤ j ≤ k → Retried (body j) j) →
  ∃ run, retryLoop (S maxAttempts) body 0 [] = Some run ∧
         k < attemptsMade run ≤ maxAttempts.
Proof.
  intros Hk Hretried.
  replace (S maxAttempts) with (k + (S maxAttempts - k)) by lia.
  rewrite retryLoop_skip; [|lia|intros j Hj; apply Hretried; lia].
  destruct (retryLoop_total (S maxAttempts - k) body (0 + k)
              ([] ++ flat_map (λ j, retryLogOf (body j) j) (seq 1 k)))
    as (run & Hrun & Hbound & Hnext); [lia | lia |].
  exists run. split; [done |]. cbn [Nat.add] in *. lia.
Qed.

Lemma withPuppeteerBody_Retried (env : nat → Attempt) (j : nat) (error : JsError) :
  env j = Throws error → isAllowed error = true → j < maxAttempts →
  Retried (withPuppeteerBody env j) j.
Proof. intros He ??. right. exists error. unfold withPuppeteerBody. by rewrite He. Qed.

Lemma inPuppeteerBody_Retried (env : nat → Attempt) (j : nat) (error : JsError) :
  env j = Throws error → isAllowed error = true → j < maxAttempts →
  Retried (inPuppeteerBody env j) j.
Proof. intros He ??. right. exists error. unfold inPuppeteerBody. by rewrite He. Qed.

Lemma retryLog_withPuppeteerBody (env : nat → Attempt) (k : nat) :
  flat_map (λ j, retryLogOf (withPuppeteerBody env j) j) (seq 1 (k - 1))
  = retryLog env k.
Proof.
  unfold retryLog, withPuppeteerBody. induction (seq 1 (k - 1)) as [|j l IH];
    [done |]. cbn [flat_map]. rewrite IH. by destruct (env j).
Qed.

Lemma retryLog_inPuppeteerBody (env : nat → Attempt) (k : nat) :
  flat_map (λ j, retryLogOf (inPuppeteerBody env j) j) (seq 1 (k - 1))
  = retryLog env k.
Proof.
  unfold retryLog, inPuppeteerBody. induction (seq 1 (k - 1)) as [|j l IH];
    [done |]. cbn [flat_map]. rewrite IH. by destruct (env j).
Qed.

(** C7.  Let the sessions [1 .. k - 1] fail with allow-listed errors and
    session [k <= 5] fail with [error].  If [error] is not allow-listed,
    or [k] is the fifth attempt, both functions throw that very error
    after exactly [k] attempts, having logged one line per earlier
    failure; if it is allow-listed and [k < 5], a further attempt
    follows.  Whatever the sessions do, both loops end after at most
    five attempts. *)
Theorem puppeteer_retry (env : nat → Attempt) (k : nat) (error : JsError) :
  1 ≤ k ≤ maxAttempts →
  (∀ j, 1 ≤ j < k → ∃ e, env j = Throws e ∧ isAllowed e = true) →
  env k = Throws error →
  (isAllowed error = false ∨ k = maxAttempts →
   let rethrown := {| completion := Thrown error; attemptsMade := k;
                      consoleLog := retryLog env k |} in
   withPuppeteerBrowserAndPage env = Some rethrown ∧
   inPuppeteer env = Some rethrown) ∧
  (isAllowed error = true ∧ k < maxAttempts →
   ∃ run1 run2,
     withPuppeteerBrowserAndPage env = Some run1 ∧
     inPuppeteer env = Some run2 ∧
     k < attemptsMade run1 ∧ k < attemptsMade run2) ∧
  (∀ env' : nat → Attempt,
   ∃ run1 run2,
     withPuppeteerBrowserAndPage env' = Some run1 ∧
     inPuppeteer env' = Some run2 ∧
     attemptsMade run1 ≤ maxAttempts ∧ attemptsMade run2 ≤ maxAttempts).
Proof.
  intros Hk Hbefore Hthrows. split; [|split].
  - intros Hstop rethrown. subst rethrown.
    unfold withPuppeteerBrowserAndPage, inPuppeteer. split.
    + rewrite (retryLoop_rethrows _ k error); [| done | | | done].
      * by rewrite retryLog_withPuppeteerBody.
      * intros j Hj. destruct (Hbefore j Hj) as (e & He & Hallow).
        apply (withPuppeteerBody_Retried env j e); [done | done | lia].
      * unfold withPuppeteerBody. by rewrite Hthrows.
    + rewrite (retryLoop_rethrows _ k error); [| done | | | done].
      * by rewrite retryLog_inPuppeteerBody.
      * intros j Hj. destruct (Hbefore j Hj) as (e & He & Hallow).
        apply (inPuppeteerBody_Retried env j e); [done | done | lia].
      * unfold inPuppeteerBody. by rewrite Hthrows.
  - intros [Hallow Hlt].
    assert (Hupto : ∀ j, 1 ≤ j ≤ k → ∃ e, env j = Throws e ∧ isAllowed e = true).
    { intros j Hj. destruct (decide (j = k)) as [->|Hne].
      - by exists error.
      - apply Hbefore. lia. }
    destruct (retryLoop_retries (withPuppeteerBody env) k Hlt) as (run1 & H1 & B1).
    { intros j Hj. destruct (Hupto j Hj) as (e & He & Ha).
      apply (withPuppeteerBody_Retried env j e); [done | done | lia]. }
    destruct (retryLoop_retries (inPuppeteerBody env) k Hlt) as (run2 & H2 & B2).
    { intros j Hj. destruct (Hupto j Hj) as (e & He & Ha).
      apply (inPuppeteerBody_Retried env j e); [done | done | lia]. }
    exists run1, run2. repeat split; [done | done | lia | lia].
  - intros env'.
    destruct (retryLoop_total (S maxAttempts) (withPuppeteerBody env') 0 [])
      as (run1 & H1 & B1 & _); [lia | lia |].
    destruct (retryLoop_total (S maxAttempts) (inPuppeteerBody env') 0 [])
      as (run2 & H2 & B2 & _); [lia | lia |].
    exists run1, run2. repeat split; [done | done | lia | lia].
Qed.

Lemma puppeteer_retry_witness :
  let transient := {| name := "Error"; message := "Evaluation failed: undefined" |} in
  let fatal := {| name := "Error"; message := "net::ERR_FILE_NOT_FOUND" |} in
  let env := λ n, if n <? 3 then Throws transient else Throws fatal in
  1 ≤ 3 ≤ maxAttempts ∧
  (∀ j, 1 ≤ j < 3 → ∃ e, env j = Throws e ∧ isAllowed e = true) ∧
  env 3 = Throws fatal ∧
  isAllowed fatal = false ∧
  withPuppeteerBrowserAndPage env =
    Some {| completion := Thrown fatal; attemptsMade := 3;
            consoleLog := retryLog env 3 |} ∧
  inPuppeteer env =
    Some {| completion := Thrown fatal; attemptsMade := 3;
            consoleLog := retryLog env 3 |}.
Proof.
  intros transient fatal env.
  assert (H1 : 1 ≤ 3 ≤ maxAttempts) by (unfold maxAttempts; lia).
  assert (H2 : ∀ j, 1 ≤ j < 3 → ∃ e, env j = Throws e ∧ isAllowed e = true).
  { intros j Hj. exists transient.
    destruct j as [|[|[|j]]]; [lia | done | done | lia]. }
  assert (H3 : env 3 = Throws fatal) by reflexivity.
  assert (H4 : isAllowed fatal = false) by reflexivity.
  split; [exact H1 |]. split; [exact H2 |]. split; [exact H3 |].
  split; [exact H4 |].
  exact (proj1 (puppeteer_retry env 3 fatal H1 H2 H3) (or_introl H4)).
Defined.

End Puppeteer.

(** ** [src/project/types/website/listing/website-listing.ts] *)
Module Listing.
Import JsString.

(** *** Data *)

(** Modelled from the spec: the enum [ListingType] of
    [website-listing-shared.ts], which is not under [src/]; the closed
    variant Default, Grid, Table, Custom. *)
Inductive ListingType :=
| Default
| Grid
| Table
| Custom.

(** Modelled from the spec: the interface [Listing] of
    [website-listing-shared.ts], which is not under [src/]; identifier,
    type, optional custom-template path and content glob patterns.
    [listing_type = None] is a listing whose type is not given. *)
Record Listing := {
  listing_id : string;
  listing_type : option ListingType;
  listing_template : option string;
  listing_contents : list string
}.

(** The project context; [project.dir] is all that is read of it. *)
Record ProjectContext := { dir : string }.

(** The values of a plain options object. *)
Inductive JsValue :=
| VUndefined
| VBool (b : bool)
| VNumber (n : Z)
| VString (s : string).

(** Modelled from the spec: the interface [ListingSharedOptions] of
    [website-listing-shared.ts], which is not under [src/]; the two
    options read here, [options[kFeed]] (the feed configuration, or
    undefined) and [options[kFieldCategories]]. *)
Record ListingSharedOptions := {
  feed : option (gmap string JsValue);
  categories : bool
}.

(** A document tree. *)
#[warnings="-register-all"]
Inductive Node :=
| Element (tagName : string) (attributes : list (string * string))
    (childNodes : list Node)
| TextNode (data : string).

(** Modelled from the spec: the cache record of one project, of
    [website-listing-project.ts], which is not under [src/]; a mapping
    from listing-page path to glob patterns, which may be absent. *)
Record ListingProjectData := {
  listingMap : option (gmap string (list string))
}.

(** Modelled from the spec: the result type of [filterPaths], of
    [core/path.ts], which is not under [src/]; only its include list is
    read here, and an exclude list is not modelled. *)
Record ResolvedPathGlobs := { include : list string }.

Record HtmlPostProcessResult := {
  resources : list string;
  supporting : list string
}.

Record DependencyFile := { file_name : string; file_path : string }.

Record FormatDependency := {
  dependency_name : string;
  dependency_scripts : list DependencyFile
}.

(** A function that returns or throws an [Error] with a message. *)
Inductive Result (A : Type) :=
| Returns (value : A)
| ThrowsError (message : string).
Arguments Returns {A} value.
Arguments ThrowsError {A} message.

Definition bindResult {A B : Type} (r : Result A) (k : A → Result B) : Result B :=
  match r with
  | Returns a => k a
  | ThrowsError m => ThrowsError m
  end.

(** [forEach] with a callback that may throw, collecting what it
    pushes: the first error ends the loop. *)
Fixpoint forEachPush {A B : Type} (f : A → Result B) (l : list A) : Result (list B) :=
  match l with
  | [] => Returns []
  | x :: l' =>
      bindResult (f x) (λ y,
      bindResult (forEachPush f l') (λ ys, Returns (y :: ys)))
  end.

Lemma forEachPush_throws {A B : Type} (f : A → Result B) (l : list A)
    (x : A) (message : string) :
  x ∈ l → f x = ThrowsError message →
  ∃ message', forEachPush f l = ThrowsError message'.
Proof.
  intros Hin Hx. induction l as [|a l IH]; [by apply elem_of_nil in Hin |].
  cbn [forEachPush]. destruct (f a) as [y|m] eqn:Ha; cbn [bindResult].
  - apply elem_of_cons in Hin as [->|Hin]; [congruence |].
    destruct (IH Hin) as [message' ->]. by exists message'.
  - by exists m.
Qed.

Definition kMarginSidebarId : string := "quarto-margin-sidebar".

(** *** The document tree *)

Definition hasId (id : string) (attrs : list (string * string)) : bool :=
  bool_decide (Preserve.objectGet attrs "id" = Some id).

(** [doc.getElementById(id)]: the place, as a path of child indices,
    of the first element in document order that carries the id. *)
Fixpoint getElementById (doc : Node) (id : string) : option (list nat) :=
  match doc with
  | TextNode _ => None
  | Element _ attrs children =>
      if hasId id attrs then Some []
      else (fix inChildren (i : nat) (cs : list Node) : option (list nat) :=
              match cs with
              | [] => None
              | c :: cs' =>
                  match getElementById c id with
                  | Some p => Some (i :: p)
                  | None => inChildren (S i) cs'
                  end
              end) 0%nat children
  end.

(** [el.appendChild(child)] for the element at [path] of the tree. *)
Fixpoint appendChild (doc : Node) (path : list nat) (child : Node) : Node :=
  match doc with
  | TextNode _ => doc
  | Element tag attrs children =>
      match path with
      | [] => Element tag attrs (children ++ [child])
      | i :: path' =>
          Element tag attrs
            ((fix inChildren (i : nat) (cs : list Node) : list Node :=
                match cs with
                | [] => []
                | c :: cs' =>
                    match i with
                    | O => appendChild c path' child :: cs'
                    | S i' => c :: inChildren i' cs'
                    end
                end) i children)
      end
  end.

(** *** De-duplication *)

(** Modelled from the spec: [uniqBy] of [core/lodash.ts], which is not
    under [src/], called without a key function: the de-duplicated
    sequence, every value kept where it first occurs. *)
Fixpoint uniqByFrom (seen l : list string) : list string :=
  match l with
  | [] => []
  | x :: l' => if decide (x ∈ seen) then uniqByFrom seen l'
               else x :: uniqByFrom (x :: seen) l'
  end.

Definition uniqBy (l : list string) : list string := uniqByFrom [] l.

Lemma elem_of_uniqByFrom (seen l : list string) (x : string) :
  x ∈ uniqByFrom seen l ↔ x ∈ l ∧ x ∉ seen.
Proof.
  revert seen. induction l as [|y l IH]; intros seen; cbn [uniqByFrom].
  - rewrite !elem_of_nil. tauto.
  - destruct (decide (y ∈ seen)) as [Hy|Hy].
    + rewrite IH, elem_of_cons. split.
      * intros [??]. by auto.
      * intros [[->|?] ?]; [done | by auto].
    + rewrite !elem_of_cons, IH, elem_of_cons. split.
      * intros [->|[? Hn]]; [by auto |]. split; [by auto | by intros ?; apply Hn; right].
      * intros [[->|?] Hn]; [by left |].
        destruct (decide (x = y)) as [->|Hne]; [by left | right].
        split; [done |]. by intros [?|?].
Qed.

Lemma NoDup_uniqByFrom (seen l : list string) : NoDup (uniqByFrom seen l).
Proof.
  revert seen. induction l as [|y l IH]; intros seen; cbn [uniqByFrom].
  - constructor.
  - destruct (decide (y ∈ seen)); [apply IH |].
    apply NoDup_cons. split; [|apply IH].
    rewrite elem_of_uniqByFrom, elem_of_cons. intros [_ Hn]. apply Hn. by left.
Qed.

Lemma elem_of_uniqBy (l : list string) (x : string) : x ∈ uniqBy l ↔ x ∈ l.
Proof.
  unfold uniqBy. rewrite elem_of_uniqByFrom, elem_of_nil. tauto.
Qed.

Lemma uniqBy_singleton (x : string) : uniqBy [x] = [x].
Proof.
  unfold uniqBy. cbn [uniqByFrom].
  destruct (decide (x ∈ [])) as [Hin|_]; [by apply elem_of_nil in Hin | done].
Qed.

Lemma elem_of_List_filter {A : Type} (f : A → bool) (l : list A) (x : A) :
  x ∈ List.filter f l ↔ x ∈ l ∧ f x = true.
Proof. rewrite !list_elem_of_In. apply filter_In. Qed.

(** *** Sample collaborators, used to run the functions on examples *)

(** A glob matcher for patterns of literal characters and [*], which
    stands for any run of characters other than [/]. *)
Fixpoint wildcard (pattern text : list ascii) : bool :=
  match pattern with
  | [] => match text with [] => true | _ => false end
  | p :: pattern' =>
      if decide (p = "*"%char) then
        (fix star (text : list ascii) : bool :=
           wildcard pattern' text ||
           match text with
           | [] => false
           | c :: text' => if decide (c = "/"%char) then false else star text'
           end) text
      else match text with
           | [] => false
           | c :: text' => bool_decide (p = c) && wildcard pattern' text'
           end
  end.

Definition wildcardMatch (root glob path : string) : bool :=
  wildcard (list_ascii_of_string glob) (list_ascii_of_string path).

(** Joining two normalised, non-empty path segments. *)
Definition posixJoin (a b : string) : string := a +:+ "/" +:+ b.

Example wildcard_posts : wildcardMatch "/proj" "posts/*.md" "posts/a.md" = true.
Proof. reflexivity. Qed.

Example wildcard_readme : wildcardMatch "/proj" "posts/*.md" "readme.md" = false.
Proof. reflexivity. Qed.

Example wildcard_nested : wildcardMatch "/proj" "posts/*.md" "posts/x/a.md" = false.
Proof. reflexivity. Qed.

(** *** The functions of the file *)
Section WebsiteListing.
Local Set Default Proof Using "Type".

(** The output format and the items of a listing are opaque here. *)
Variable Format : Type.
Variable ListingItem : Type.
Variable SassLayer : Type.

(** Collaborators that are imported from other modules. *)
Variable globMatch : string → string → string → bool.
Variable join : string → string → string.
Variable relative : string → string → string.
Variable basename : string → string.
Variable resourcePath : string → string.
Variable existsSync : string → bool.
Variable sassLayer : string → SassLayer.
Variable kBootstrapDependencyName : string.
Variable createFile : nat → string → string.

Record ListingDescriptor := {
  listing : Listing;
  items : list ListingItem
}.

(** A handler is what [templateMarkdownHandler] is called with. *)
Record MarkdownPipelineHandler := templateMarkdownHandler {
  handler_template : string;
  handler_listing : Listing;
  handler_items : list ListingItem;
  handler_format : Format;
  handler_bundled : bool
}.

(** The pipeline object made by [createMarkdownPipeline]. *)
Record MarkdownPipeline := {
  markdownAfterBody : string;
  processRenderedMarkdown : Node → Node
}.

Variable readListings :
  string → ProjectContext → Format → list ListingDescriptor * ListingSharedOptions.
Variable templateJsScript : string → Listing → nat → string.
Variable createMarkdownPipeline :
  string → list MarkdownPipelineHandler → MarkdownPipeline.
Variable categorySidebar :
  Node → list ListingDescriptor → Format → ListingSharedOptions → Node * Node.
Variable createFeed :
  Node → string → ProjectContext → list ListingDescriptor →
  gmap string JsValue → Format → option (list string).

(** What the post processor of a page did: the document it leaves, its
    result, and the options of every call of [createFeed]. *)
Record PostProcessRun := {
  run_document : Node;
  run_result : HtmlPostProcessResult;
  run_feedCalls : list (gmap string JsValue)
}.

Record SassBundle := {
  bundle_dependency : string;
  bundle_key : string;
  bundle_name : string;
  bundle_layer : SassLayer
}.

Record FormatExtras := {
  includeInHeader : list string;
  htmlPostprocessors : Node → PostProcessRun;
  markdownAfterBodyExtra : string;
  dependencies : list FormatDependency;
  sassBundles : list SassBundle
}.

(** The state the functions read and write: the listing caches of the
    projects, keyed by project directory, the text files written, and
    the number of temporary files created. *)
Record World := {
  cache : gmap string ListingProjectData;
  written : list (string * string);
  tempFiles : nat
}.

(** **** The helpers of [website-listing-project.ts], [core/path.ts]
    and [core/lodash.ts] *)

(** Modelled from the spec: [listingProjectData] of
    [website-listing-project.ts], which is not under [src/]; a cache
    that is missing is treated as empty. *)
Definition listingProjectData (project : ProjectContext)
    (store : gmap string ListingProjectData) : ListingProjectData :=
  default {| listingMap := None |} (store !! dir project).

(** Modelled from the spec: [clearListingProjectData] of
    [website-listing-project.ts], which is not under [src/]; it
    unconditionally empties the cache of the project. *)
Definition clearListingProjectData (project : ProjectContext)
    (store : gmap string ListingProjectData) : gmap string ListingProjectData :=
  <[dir project := {| listingMap := Some ∅ |}]> store.

(** Modelled from the spec: [cacheListingProjectData] of
    [website-listing-project.ts], which is not under [src/]; the entry
    of the listing page is overwritten with the union of the glob
    patterns of the contents of its listings. *)
Definition cacheListingProjectData (project : ProjectContext)
    (listingPagePath : string) (descriptors : list ListingDescriptor)
    (store : gmap string ListingProjectData) : gmap string ListingProjectData :=
  let listingMap := default ∅ (listingMap (listingProjectData project store)) in
  let globs := uniqBy (flat_map (λ d, listing_contents (listing d)) descriptors) in
  <[dir project := {| listingMap := Some (<[listingPagePath := globs]> listingMap) |}]> store.

(** Modelled from the spec: [filterPaths] of [core/path.ts], which is
    not under [src/]; the paths that match the glob set, that is, at
    least one of its patterns, by the glob matcher. *)
Definition filterPaths (root : string) (paths globs : list string) : ResolvedPathGlobs :=
  {| include := List.filter (λ path, existsb (λ glob, globMatch root glob path) globs) paths |}.

(** **** [listingSupplementalFiles] *)

(** [listingProjData.listingMap || {}] *)
Definition listingMapOf (project : ProjectContext)
    (store : gmap string ListingProjectData) : gmap string (list string) :=
  default ∅ (listingMap (listingProjectData project store)).

(** The callback of [listingFiles.filter]. *)
Definition listingMatches (project : ProjectContext) (files : list string)
    (listingMap : gmap string (list string)) (listingFile : string) : bool :=
  let globs := default [] (listingMap !! listingFile) in
  if (0 <? Z.of_nat (length (include (filterPaths (dir project) files globs))))
  then true else false.

Definition listingSupplementalFiles (project : ProjectContext)
    (files : list string) (incremental : bool)
    (store : gmap string ListingProjectData)
    : list string * gmap string ListingProjectData :=
  if incremental then
    let listingMap := listingMapOf project store in
    let listingFiles := (map_to_list listingMap).*1 in
    let matching := List.filter (listingMatches project files listingMap) listingFiles in
    if (0 <? Z.of_nat (length matching)) then
      let supplementalFiles :=
        (λ listingRelativePath, join (dir project) listingRelativePath) <$> matching in
      (uniqBy supplementalFiles, store)
    else ([], store)
  else
    ([], clearListingProjectData project store).

(** **** [markdownHandler] *)

Definition markdownHandler (format : Format) (listing : Listing)
    (items : list ListingItem) : Result MarkdownPipelineHandler :=
  match listing_type listing with
  | Some Table =>
      Returns (templateMarkdownHandler
                 (resourcePath "projects/website/listing/listing-table.ejs.md")
                 listing items format true)
  | Some Grid =>
      Returns (templateMarkdownHandler
                 (resourcePath "projects/website/listing/listing-grid.ejs.md")
                 listing items format true)
  | Some Custom =>
      match listing_template listing with
      | None =>
          ThrowsError
            "In order to use a listing of type custom, please provide the path to a template."
      | Some template =>
          if negb (existsSync template) then
            ThrowsError ("The template " +:+ template +:+ " can't be found.")
          else
            Returns (templateMarkdownHandler template listing items format false)
      end
  | Some Default | None =>
      Returns (templateMarkdownHandler
                 (resourcePath "projects/website/listing/listing-default.ejs.md")
                 listing items format true)
  end.

(** **** [listingPostProcess] *)

Definition listingPostProcess (doc : Node)
    (listingDescriptors : list ListingDescriptor)
    (options : ListingSharedOptions) (format : Format) : Node :=
  if categories options then
    let '(headingEl, categoriesEl) :=
      categorySidebar doc listingDescriptors format options in
    match getElementById doc kMarginSidebarId with
    | Some rightSidebar =>
        appendChild (appendChild doc rightSidebar headingEl)
          rightSidebar categoriesEl
    | None => doc
    end
  else doc.

(** **** The post processor made by [listingHtmlDependencies] *)

(** [{ type: "partial", ...options[kFeed] }]: the properties of the
    feed options are copied over the literal's [type]. *)
Definition feedListingOptions (feedOptions : gmap string JsValue)
    : gmap string JsValue :=
  feedOptions ∪ {[ "type" := VString "partial" ]}.

Definition listingPostProcessor (source : string) (project : ProjectContext)
    (format : Format) (listingDescriptors : list ListingDescriptor)
    (options : ListingSharedOptions) (pipeline : MarkdownPipeline)
    (doc : Node) : PostProcessRun :=
  let doc := processRenderedMarkdown pipeline doc in
  let doc := listingPostProcess doc listingDescriptors options format in
  match feed options with
  | Some feedOptions =>
      let listingOptions := feedListingOptions feedOptions in
      let feedAbsPaths :=
        createFeed doc source project listingDescriptors listingOptions format in
      {| run_document := doc;
         run_result := {| resources := [];
                          supporting := default [] feedAbsPaths |};
         run_feedCalls := [listingOptions] |}
  | None =>
      {| run_document := doc;
         run_result := {| resources := []; supporting := [] |};
         run_feedCalls := [] |}
  end.

(** **** [listingHtmlDependencies] *)

Definition scriptFileForScripts (scripts : list string) (w : World) : string * World :=
  let scriptFile := createFile (tempFiles w) "html" in
  let contents := "<script>" +:+ String "010" (String.concat (String "010" "") scripts)
                  +:+ "</script>" in
  (scriptFile,
   {| cache := cache w; written := written w ++ [(scriptFile, contents)];
      tempFiles := S (tempFiles w) |}).

Definition listingSassBundle : SassBundle :=
  let scssPath := resourcePath "projects/website/listing/quarto-listing.scss" in
  {| bundle_dependency := kBootstrapDependencyName;
     bundle_key := scssPath;
     bundle_name := "quarto-listing.css";
     bundle_layer := sassLayer scssPath |}.

Definition listingHtmlDependencies (source : string) (project : ProjectContext)
    (format : Format) (w : World) : Result (option FormatExtras) * World :=
  let '(listingDescriptors, options) := readListings source project format in
  if (Z.of_nat (length listingDescriptors) =? 0) then (Returns None, w)
  else
    let w :=
      {| cache := cacheListingProjectData project
                    (relative (dir project) source) listingDescriptors (cache w);
         written := written w; tempFiles := tempFiles w |} in
    match forEachPush (λ d, markdownHandler format (listing d) (items d))
            listingDescriptors with
    | ThrowsError message => (ThrowsError message, w)
    | Returns markdownHandlers =>
        let pipeline :=
          createMarkdownPipeline "quarto-listing-pipeline" markdownHandlers in
        let kListingDependency := "quarto-listing" in
        let jsPaths :=
          [ resourcePath "projects/website/listing/list.min.js";
            resourcePath "projects/website/listing/quarto-listing.js" ] in
        let htmlDependencies :=
          [ {| dependency_name := kListingDependency;
               dependency_scripts :=
                 (λ path, {| file_name := basename path; file_path := path |})
                   <$> jsPaths |} ] in
        let scripts :=
          (λ d, templateJsScript (listing_id (listing d)) (listing d)
                  (length (items d))) <$> listingDescriptors in
        let '(scriptFile, w) := scriptFileForScripts scripts w in
        (Returns (Some
           {| includeInHeader := [scriptFile];
              htmlPostprocessors :=
                listingPostProcessor source project format listingDescriptors
                  options pipeline;
              markdownAfterBodyExtra := markdownAfterBody pipeline;
              dependencies := htmlDependencies;
              sassBundles := [listingSassBundle] |}), w)
    end.

(** *** Properties *)

(** A page one of whose patterns matches one of the files passes the
    filter. *)
Lemma listingMatches_true (project : ProjectContext) (files : list string)
    (listingMap : gmap string (list string)) (page : string)
    (globs : list string) (glob file : string) :
  listingMap !! page = Some globs → glob ∈ globs → file ∈ files →
  globMatch (dir project) glob file = true →
  listingMatches project files listingMap page = true.
Proof.
  intros Hpage Hglob Hfile Hmatch. unfold listingMatches. rewrite Hpage.
  cbn [default filterPaths include].
  assert (Hin : file ∈ List.filter
                  (λ path, existsb (λ glob, globMatch (dir project) glob path) globs)
                  files).
  { apply elem_of_List_filter. split; [done |].
    apply existsb_exists. exists glob. by rewrite <- list_elem_of_In. }
  destruct (List.filter _ files) as [|f fs]; [by apply elem_of_nil in Hin | done].
Qed.

(** C1.  In an incremental call, the path of every cached listing page
    one of whose recorded patterns matches one of the changed files is in
    the result, and the result has no duplicates. *)
Theorem listingSupplementalFiles_sound (project : ProjectContext)
    (files : list string) (store : gmap string ListingProjectData)
    (page : string) (globs : list string) (glob file : string) :
  listingMapOf project store !! page = Some globs →
  glob ∈ globs → file ∈ files →
  globMatch (dir project) glob file = true →
  join (dir project) page ∈ (listingSupplementalFiles project files true store).1 ∧
  NoDup (listingSupplementalFiles project files true store).1.
Proof.
  intros Hpage Hglob Hfile Hmatch. cbn [listingSupplementalFiles].
  set (m := listingMapOf project store) in Hpage |- *.
  assert (Hin : page ∈ List.filter (listingMatches project files m)
                  (map_to_list m).*1).
  { apply elem_of_List_filter. split.
    - apply (list_elem_of_fmap_2 fst _ (page, globs)).
      by apply elem_of_map_to_list.
    - by apply (listingMatches_true _ _ _ _ globs glob file). }
  destruct (List.filter _ _) as [|p ps] eqn:E; [by apply elem_of_nil in Hin |].
  cbn [length]. replace (0 <? Z.of_nat (S (length ps))) with true
    by (symmetry; apply Z.ltb_lt; lia).
  cbn [fst]. split; [|apply NoDup_uniqByFrom].
  apply elem_of_uniqBy. by apply (list_elem_of_fmap_2 (join (dir project))).
Qed.

(** Conversely, every path returned belongs to a cached page with a
    matching pattern, and an incremental call leaves the cache as it
    is. *)
Lemma listingSupplementalFiles_matching (project : ProjectContext)
    (files : list string) (store : gmap string ListingProjectData)
    (path : string) :
  path ∈ (listingSupplementalFiles project files true store).1 →
  ∃ page globs glob file,
    listingMapOf project store !! page = Some globs ∧
    glob ∈ globs ∧ file ∈ files ∧
    globMatch (dir project) glob file = true ∧
    path = join (dir project) page.
Proof.
  cbn [listingSupplementalFiles].
  set (m := listingMapOf project store).
  destruct (List.filter _ _) as [|p ps] eqn:E;
    [intros Hin; by apply elem_of_nil in Hin |].
  cbn [length]. replace (0 <? Z.of_nat (S (length ps))) with true
    by (symmetry; apply Z.ltb_lt; lia).
  cbn [fst]. rewrite elem_of_uniqBy, <- E. intros Hin.
  apply list_elem_of_fmap_1 in Hin as (page & -> & Hpage).
  apply elem_of_List_filter in Hpage as [Hkey Hmatch].
  apply list_elem_of_fmap_1 in Hkey as ([page' globs] & -> & Hkey).
  apply elem_of_map_to_list in Hkey. cbn [fst] in Hmatch |- *.
  unfold listingMatches in Hmatch. rewrite Hkey in Hmatch.
  cbn [default filterPaths include] in Hmatch. unfold id in Hmatch.
  destruct (List.filter _ files) as [|file fs] eqn:Efiles; [done |].
  assert (Hfile : file ∈ List.filter
                    (λ path, existsb (λ glob, globMatch (dir project) glob path) globs)
                    files) by (rewrite Efiles; apply elem_of_cons; by left).
  apply elem_of_List_filter in Hfile as [Hfile Hex].
  apply existsb_exists in Hex as (glob & Hglob & Hg).
  exists page', globs, glob, file. by rewrite list_elem_of_In.
Qed.

Lemma listingSupplementalFiles_incremental_store (project : ProjectContext)
    (files : list string) (store : gmap string ListingProjectData) :
  (listingSupplementalFiles project files true store).2 = store.
Proof.
  cbn [listingSupplementalFiles].
  by destruct (0 <? Z.of_nat (length (List.filter _ _))).
Qed.

Lemma listingMapOf_clear (project : ProjectContext)
    (store : gmap string ListingProjectData) :
  listingMapOf project (clearListingProjectData project store) = ∅.
Proof.
  unfold listingMapOf, listingProjectData, clearListingProjectData.
  by rewrite lookup_insert_eq.
Qed.

(** C3.  A full-render call returns the empty list and leaves the
    cache of the project empty; whatever files an incremental call
    that follows is given, it returns the empty list. *)
Theorem listingSupplementalFiles_clear (project : ProjectContext)
    (files files' : list string) (store : gmap string ListingProjectData) :
  let full := listingSupplementalFiles project files false store in
  full.1 = [] ∧
  listingMapOf project full.2 = ∅ ∧
  (listingSupplementalFiles project files' true full.2).1 = [].
Proof.
  cbn [listingSupplementalFiles fst snd]. split; [done |].
  rewrite listingMapOf_clear. split; [done |].
  by rewrite map_to_list_empty.
Qed.

(** C6, as amended.  With the cache
    [{ "blog/index.qmd": ["posts/*.md"] }] and a glob matcher for which
    ["posts/*.md"] matches ["posts/a.md"] and not ["readme.md"], the
    incremental call with ["posts/a.md"] returns the path of
    ["blog/index.qmd"] joined to the project directory, and the call
    with ["readme.md"] returns the empty list. *)
Theorem listingSupplementalFiles_scenario (project : ProjectContext)
    (store : gmap string ListingProjectData) :
  listingMapOf project store = {[ "blog/index.qmd" := ["posts/*.md"] ]} →
  globMatch (dir project) "posts/*.md" "posts/a.md" = true →
  globMatch (dir project) "posts/*.md" "readme.md" = false →
  (listingSupplementalFiles project ["posts/a.md"] true store).1
    = [join (dir project) "blog/index.qmd"] ∧
  (listingSupplementalFiles project ["readme.md"] true store).1 = [].
Proof.
  intros Hcache Hyes Hno. cbn [listingSupplementalFiles].
  rewrite Hcache, map_to_list_singleton.
  cbn [fmap list_fmap fst List.filter].
  unfold listingMatches. rewrite lookup_singleton_eq.
  cbn. rewrite Hyes, Hno. cbn.
  change (0 <? Z.of_nat 1) with true. cbn. split; [|done].
  apply uniqBy_singleton.
Qed.

(** C2, as amended.  When the shared options carry feed options, the
    feed is created once, with the feed options themselves and with
    [type] set to ["partial"] only where the feed options have no
    [type]: a requested type is passed on as it is. *)
Theorem feed_type_defaults_to_partial (source : string)
    (project : ProjectContext) (format : Format)
    (listingDescriptors : list ListingDescriptor)
    (options : ListingSharedOptions) (pipeline : MarkdownPipeline)
    (doc : Node) (feedOptions : gmap string JsValue) :
  feed options = Some feedOptions →
  ∃ listingOptions,
    run_feedCalls (listingPostProcessor source project format
                     listingDescriptors options pipeline doc) = [listingOptions] ∧
    listingOptions !! "type"
      = Some (default (VString "partial") (feedOptions !! "type")) ∧
    ∀ key, key ≠ "type" → listingOptions !! key = feedOptions !! key.
Proof.
  intros Hfeed. exists (feedListingOptions feedOptions).
  unfold listingPostProcessor. rewrite Hfeed. cbn [run_feedCalls].
  split; [done |]. unfold feedListingOptions. split.
  - rewrite lookup_union. destruct (feedOptions !! "type") as [v|] eqn:E.
    + by rewrite lookup_singleton_eq.
    + by rewrite lookup_singleton_eq.
  - intros key Hkey. rewrite lookup_union, lookup_singleton_ne by done.
    by destruct (feedOptions !! key).
Qed.

(** C4.  A listing without a type, or of type Default, Grid or Table,
    gets the handler of its bundled template, whatever else the listing
    and its items hold; a Custom listing whose template is unset, or
    names a path that does not exist, throws, and no handler is made. *)
Theorem markdownHandler_dispatch (format : Format) (listing : Listing)
    (items : list ListingItem) :
  match listing_type listing with
  | None | Some Default =>
      markdownHandler format listing items =
      Returns (templateMarkdownHandler
                 (resourcePath "projects/website/listing/listing-default.ejs.md")
                 listing items format true)
  | Some Grid =>
      markdownHandler format listing items =
      Returns (templateMarkdownHandler
                 (resourcePath "projects/website/listing/listing-grid.ejs.md")
                 listing items format true)
  | Some Table =>
      markdownHandler format listing items =
      Returns (templateMarkdownHandler
                 (resourcePath "projects/website/listing/listing-table.ejs.md")
                 listing items format true)
  | Some Custom =>
      listing_template listing = None ∨
      (∃ template, listing_template listing = Some template ∧
                   existsSync template = false) →
      ∃ message, markdownHandler format listing items = ThrowsError message
  end.
Proof.
  unfold markdownHandler.
  destruct (listing_type listing) as [[| | |]|]; try done.
  intros [->|(template & -> & ->)]; cbn [negb]; eauto.
Qed.

(** A page one of whose listings is a Custom listing without a usable
    template gets no extras: the call throws, and no pipeline is made. *)
Lemma listingHtmlDependencies_missing_template (source : string)
    (project : ProjectContext) (format : Format) (w : World)
    (d : ListingDescriptor) :
  d ∈ (readListings source project format).1 →
  listing_type (listing d) = Some Custom →
  listing_template (listing d) = None ∨
  (∃ template, listing_template (listing d) = Some template ∧
               existsSync template = false) →
  ∃ message,
    (listingHtmlDependencies source project format w).1 = ThrowsError message.
Proof.
  intros Hin Htype Htemplate. unfold listingHtmlDependencies.
  destruct (readListings source project format) as [ds options].
  cbn [fst] in Hin.
  destruct ds as [|d0 ds]; [by apply elem_of_nil in Hin |].
  replace (Z.of_nat (length (d0 :: ds)) =? 0) with false
    by (symmetry; apply Z.eqb_neq; cbn [length]; lia).
  assert (Hthrow : ∃ message,
            markdownHandler format (listing d) (items d) = ThrowsError message).
  { unfold markdownHandler. rewrite Htype.
    destruct Htemplate as [->|(template & -> & ->)]; cbn [negb]; eauto. }
  destruct Hthrow as [message Hthrow].
  destruct (forEachPush_throws
              (λ d, markdownHandler format (listing d) (items d))
              (d0 :: ds) d message Hin Hthrow) as [message' ->].
  by exists message'.
Qed.

(** C5, as amended.  A Custom listing without a template throws the
    fixed message that asks for a template path; a Custom listing whose
    template does not exist throws a message that names the template
    path.  (Neither message is built from the listing's identifier.) *)
Theorem markdownHandler_custom_error (format : Format) (listing : Listing)
    (items : list ListingItem) :
  listing_type listing = Some Custom →
  (listing_template listing = None →
   markdownHandler format listing items =
   ThrowsError
     "In order to use a listing of type custom, please provide the path to a template.") ∧
  (∀ template, listing_template listing = Some template →
     existsSync template = false →
     markdownHandler format listing items =
     ThrowsError ("The template " +:+ template +:+ " can't be found.") ∧
     Occurs template ("The template " +:+ template +:+ " can't be found.")).
Proof.
  intros Htype. unfold markdownHandler. rewrite Htype. split.
  - by intros ->.
  - intros template -> ->. split; [done |].
    by exists "The template ", " can't be found.".
Qed.

(** C8.  In a document without an element of id
    ["quarto-margin-sidebar"], the category step returns the document as
    it was: nothing is appended, and the step does not fail. *)
Theorem listingPostProcess_no_sidebar (doc : Node)
    (listingDescriptors : list ListingDescriptor)
    (options : ListingSharedOptions) (format : Format) :
  getElementById doc kMarginSidebarId = None →
  listingPostProcess doc listingDescriptors options format = doc.
Proof.
  intros Hnone. unfold listingPostProcess. rewrite Hnone.
  destruct (categories options); [|done].
  by destruct (categorySidebar doc listingDescriptors format options).
Qed.

(** C9.  For a page whose metadata gives no listing, the function
    returns [undefined], and the cache, the files written and the
    temporary files are as they were before the call. *)
Theorem listingHtmlDependencies_no_listings (source : string)
    (project : ProjectContext) (format : Format) (w : World) :
  (readListings source project format).1 = [] →
  listingHtmlDependencies source project format w = (Returns None, w).
Proof.
  intros Hnone. unfold listingHtmlDependencies.
  destruct (readListings source project format) as [ds options].
  cbn [fst] in Hnone. by rewrite Hnone.
Qed.

(** *** Further properties of the supplemental set *)

(** The membership half of the soundness argument, for reuse. *)
Lemma listingSupplementalFiles_elem (project : ProjectContext)
    (files : list string) (store : gmap string ListingProjectData)
    (page : string) (globs : list string) (glob file : string) :
  listingMapOf project store !! page = Some globs →
  glob ∈ globs → file ∈ files →
  globMatch (dir project) glob file = true →
  join (dir project) page ∈ (listingSupplementalFiles project files true store).1.
Proof.
  intros Hpage Hglob Hfile Hmatch. cbn [listingSupplementalFiles].
  set (m := listingMapOf project store) in Hpage |- *.
  assert (Hin : page ∈ List.filter (listingMatches project files m)
                  (map_to_list m).*1).
  { apply elem_of_List_filter. split.
    - apply (list_elem_of_fmap_2 fst _ (page, globs)).
      by apply elem_of_map_to_list.
    - by apply (listingMatches_true _ _ _ _ globs glob file). }
  destruct (List.filter _ _) as [|p ps] eqn:E; [by apply elem_of_nil in Hin |].
  cbn [length]. replace (0 <? Z.of_nat (S (length ps))) with true
    by (symmetry; apply Z.ltb_lt; lia).
  cbn [fst]. apply elem_of_uniqBy.
  by apply (list_elem_of_fmap_2 (join (dir project))).
Qed.

(** X1.  An incremental call returns nothing but paths of cached pages
    one of whose recorded patterns matches one of the given files: every
    path of the result is the path, joined to the project directory, of
    such a page. *)
Theorem listingSupplementalFiles_only_matching (project : ProjectContext)
    (files : list string) (store : gmap string ListingProjectData)
    (path : string) :
  path ∈ (listingSupplementalFiles project files true store).1 →
  ∃ page globs glob file,
    listingMapOf project store !! page = Some globs ∧
    glob ∈ globs ∧ file ∈ files ∧
    globMatch (dir project) glob file = true ∧
    path = join (dir project) page.
Proof. apply listingSupplementalFiles_matching. Qed.

(** X2.  The supplemental set grows with the file set: every path
    returned for [files] is returned for any [files'] that contains
    [files]. *)
Theorem listingSupplementalFiles_monotone (project : ProjectContext)
    (files files' : list string) (store : gmap string ListingProjectData) :
  files ⊆ files' →
  (listingSupplementalFiles project files true store).1
    ⊆ (listingSupplementalFiles project files' true store).1.
Proof.
  intros Hsub path Hin.
  apply listingSupplementalFiles_matching in Hin
    as (page & globs & glob & file & Hpage & Hglob & Hfile & Hmatch & ->).
  apply (listingSupplementalFiles_elem _ _ _ _ globs glob file); auto.
Qed.

(** X3.  An incremental call without files returns no path, whatever
    the cache holds, and leaves the cache as it is. *)
Theorem listingSupplementalFiles_no_files (project : ProjectContext)
    (store : gmap string ListingProjectData) :
  listingSupplementalFiles project [] true store = ([], store).
Proof.
  rewrite (surjective_pairing (listingSupplementalFiles project [] true store)).
  rewrite listingSupplementalFiles_incremental_store. f_equal.
  apply elem_of_nil_inv. intros path Hin.
  apply listingSupplementalFiles_matching in Hin
    as (page & globs & glob & file & _ & _ & Hfile & _).
  by apply elem_of_nil in Hfile.
Qed.

(** *** Further properties of [listingHtmlDependencies] *)

(** The cache entry of the page is written before any handler is made:
    for a page with listings the cache after the call is the cache with
    the page recorded, whether the call returns or throws. *)
Lemma listingHtmlDependencies_cache (source : string)
    (project : ProjectContext) (format : Format) (w : World) :
  (readListings source project format).1 ≠ [] →
  cache (listingHtmlDependencies source project format w).2
  = cacheListingProjectData project (relative (dir project) source)
      (readListings source project format).1 (cache w).
Proof.
  intros Hsome. unfold listingHtmlDependencies.
  destruct (readListings source project format) as [ds options].
  cbn [fst] in Hsome |- *.
  destruct ds as [|d ds]; [done |].
  replace (Z.of_nat (length (d :: ds)) =? 0) with false
    by (symmetry; apply Z.eqb_neq; cbn [length]; lia).
  by destruct (forEachPush _ _).
Qed.

(** X4.  Record, then query: once [listingHtmlDependencies] has run
    for a page, also when it threw for a missing template, an
    incremental [listingSupplementalFiles] over files one of which
    matches a content pattern of one of the page's listings returns the
    path of that page. *)
Theorem listing_page_supplemented_after_render (source : string)
    (project : ProjectContext) (format : Format) (w : World)
    (files : list string) (d : ListingDescriptor) (glob file : string) :
  d ∈ (readListings source project format).1 →
  glob ∈ listing_contents (listing d) →
  file ∈ files →
  globMatch (dir project) glob file = true →
  join (dir project) (relative (dir project) source)
    ∈ (listingSupplementalFiles project files true
         (cache (listingHtmlDependencies source project format w).2)).1.
Proof.
  intros Hd Hglob Hfile Hmatch.
  rewrite listingHtmlDependencies_cache
    by (intros Hnil; rewrite Hnil in Hd; by apply elem_of_nil in Hd).
  apply (listingSupplementalFiles_elem _ _ _ _
           (uniqBy (flat_map (λ d, listing_contents (listing d))
                      (readListings source project format).1)) glob file);
    [| | done | done].
  - unfold listingMapOf, listingProjectData at 1, cacheListingProjectData.
    rewrite lookup_insert_eq. cbn [default listingMap]. apply lookup_insert_eq.
  - apply elem_of_uniqBy, list_elem_of_In, in_flat_map.
    exists d. by rewrite <- !list_elem_of_In.
Qed.

(** X5.  What a handler that [markdownHandler] returns holds: the
    listing, items and format it was asked for; it is marked as not
    bundled exactly for a Custom listing, and then its template is the
    listing's own template, which exists. *)
Theorem markdownHandler_returns (format : Format) (listing : Listing)
    (items : list ListingItem) (handler : MarkdownPipelineHandler) :
  markdownHandler format listing items = Returns handler →
  handler_listing handler = listing ∧
  handler_items handler = items ∧
  handler_format handler = format ∧
  (handler_bundled handler = false ↔ listing_type listing = Some Custom) ∧
  (listing_type listing = Some Custom →
   listing_template listing = Some (handler_template handler) ∧
   existsSync (handler_template handler) = true).
Proof.
  unfold markdownHandler.
  destruct (listing_type listing) as [[| | |]|];
    try (intros [= <-]; cbn; repeat split; congruence).
  destruct (listing_template listing) as [template|]; [|done].
  destruct (existsSync template) eqn:Hexists; cbn [negb]; [|done].
  intros [= <-]. cbn. repeat split; congruence.
Qed.

(** *** Further properties of [listingPostProcess] *)

(** The node at a path of child indices. *)
Fixpoint nodeAt (doc : Node) (path : list nat) {struct path} : option Node :=
  match path with
  | [] => Some doc
  | i :: path' =>
      match doc with
      | Element _ _ children =>
          match children !! i with
          | Some c => nodeAt c path'
          | None => None
          end
      | TextNode _ => None
      end
  end.

(** The tree with the node at a path replaced. *)
Fixpoint replaceNode (doc : Node) (path : list nat) (new : Node)
    {struct path} : Node :=
  match path with
  | [] => new
  | i :: path' =>
      match doc with
      | Element tag attrs children =>
          Element tag attrs (alter (λ c, replaceNode c path' new) i children)
      | TextNode _ => doc
      end
  end.

(** The search of [getElementById] among the children of an element. *)
Fixpoint firstWithId (id : string) (i : nat) (cs : list Node) : option (list nat) :=
  match cs with
  | [] => None
  | c :: cs' =>
      match getElementById c id with
      | Some p => Some (i :: p)
      | None => firstWithId id (S i) cs'
      end
  end.

Lemma getElementById_Element (tag : string) (attrs : list (string * string))
    (cs : list Node) (id : string) :
  getElementById (Element tag attrs cs) id
  = if hasId id attrs then Some [] else firstWithId id 0%nat cs.
Proof.
  cbn [getElementById]. destruct (hasId id attrs); [done |].
  generalize 0%nat. induction cs as [|c cs IH]; intros k; [done |].
  cbn [firstWithId]. destruct (getElementById c id); [done | apply IH].
Qed.

Lemma firstWithId_Some (id : string) (k : nat) (cs : list Node) (path : list nat) :
  firstWithId id k cs = Some path →
  ∃ j c q, path = (k + j)%nat :: q ∧ cs !! j = Some c ∧
           getElementById c id = Some q.
Proof.
  revert k. induction cs as [|c cs IH]; intros k; [done |].
  cbn [firstWithId]. destruct (getElementById c id) as [q|] eqn:Hc.
  - intros [= <-]. exists 0%nat, c, q. by rewrite Nat.add_0_r.
  - intros H. destruct (IH _ H) as (j & c' & q & -> & Hj & Hq).
    exists (S j), c', q. split; [f_equal; lia | done].
Qed.

(** The path that [getElementById] returns leads to an element that
    carries the id. *)
Lemma getElementById_nodeAt (id : string) (path : list nat) (doc : Node) :
  getElementById doc id = Some path →
  ∃ tag attrs children,
    nodeAt doc path = Some (Element tag attrs children) ∧
    hasId id attrs = true.
Proof.
  revert doc. induction path as [|i path IH]; intros doc.
  - destruct doc as [tag attrs cs|]; [|done].
    rewrite getElementById_Element. destruct (hasId id attrs) eqn:Hid.
    + intros _. by exists tag, attrs, cs.
    + intros H. by destruct (firstWithId_Some _ _ _ _ H) as (j & c & q & ? & _).
  - destruct doc as [tag attrs cs|]; [|done].
    rewrite getElementById_Element. destruct (hasId id attrs); [done |].
    intros H. destruct (firstWithId_Some _ _ _ _ H) as (j & c & q & [= -> ->] & Hj & Hq).
    cbn [nodeAt]. rewrite Hj. by apply IH.
Qed.

Lemma appendChild_cons (tag : string) (attrs : list (string * string))
    (cs : list Node) (i : nat) (path : list nat) (child : Node) :
  appendChild (Element tag attrs cs) (i :: path) child
  = Element tag attrs (alter (λ c, appendChild c path child) i cs).
Proof.
  cbn [appendChild]. f_equal. revert i.
  induction cs as [|c cs IH]; intros [|i]; [done | done | done |].
  cbn. f_equal. apply IH.
Qed.

(** Appending to the element at a path replaces that element by itself
    with one more child at the end. *)
Lemma appendChild_replaceNode (path : list nat) (doc : Node) (tag : string)
    (attrs : list (string * string)) (cs : list Node) (child : Node) :
  nodeAt doc path = Some (Element tag attrs cs) →
  appendChild doc path child
  = replaceNode doc path (Element tag attrs (cs ++ [child])).
Proof.
  revert doc. induction path as [|i path IH]; intros doc.
  - intros [= ->]. done.
  - destruct doc as [tag' attrs' cs'|]; [|done]. cbn [nodeAt].
    destruct (cs' !! i) as [c|] eqn:Hi; [|done]. intros Hc.
    rewrite appendChild_cons. cbn [replaceNode]. f_equal.
    apply list_alter_ext; [|done]. intros c' Hc'.
    rewrite Hi in Hc'. injection Hc' as <-. by apply IH.
Qed.

Lemma nodeAt_replaceNode (path : list nat) (doc new : Node) :
  is_Some (nodeAt doc path) → nodeAt (replaceNode doc path new) path = Some new.
Proof.
  revert doc. induction path as [|i path IH]; intros doc; [by intros _ |].
  destruct doc as [tag attrs cs|]; [|by intros [? [=]]]. cbn [nodeAt replaceNode].
  rewrite list_lookup_alter_eq. destruct (cs !! i) as [c|]; [|by intros [? [=]]].
  cbn. apply IH.
Qed.

Lemma replaceNode_replaceNode (path : list nat) (doc new1 new2 : Node) :
  replaceNode (replaceNode doc path new1) path new2 = replaceNode doc path new2.
Proof.
  revert doc. induction path as [|i path IH]; intros doc; [done |].
  destruct doc as [tag attrs cs|]; [|done]. cbn [replaceNode]. f_equal.
  rewrite list_alter_alter_eq. apply list_alter_ext; [|done].
  intros c _. apply IH.
Qed.

(** X6.  With categories enabled and an element of id
    ["quarto-margin-sidebar"] in the document, the step changes that
    element only: the heading and the category list that
    [categorySidebar] built are added, in this order, after its
    children, and everything else in the document stays. *)
Theorem listingPostProcess_sidebar (doc : Node)
    (listingDescriptors : list ListingDescriptor)
    (options : ListingSharedOptions) (format : Format) (path : list nat) :
  categories options = true →
  getElementById doc kMarginSidebarId = Some path →
  ∃ tag attrs children,
    nodeAt doc path = Some (Element tag attrs children) ∧
    hasId kMarginSidebarId attrs = true ∧
    listingPostProcess doc listingDescriptors options format
    = replaceNode doc path
        (Element tag attrs
           (children ++
            [(categorySidebar doc listingDescriptors format options).1;
             (categorySidebar doc listingDescriptors format options).2])).
Proof.
  intros Hcat Hfound.
  destruct (getElementById_nodeAt _ _ _ Hfound) as (tag & attrs & cs & Hat & Hid).
  exists tag, attrs, cs. split; [done |]. split; [done |].
  unfold listingPostProcess. rewrite Hcat, Hfound.
  destruct (categorySidebar doc listingDescriptors format options)
    as [headingEl categoriesEl]. cbn [fst snd].
  rewrite (appendChild_replaceNode path doc tag attrs cs headingEl Hat).
  rewrite (appendChild_replaceNode path _ tag attrs (cs ++ [headingEl]) categoriesEl)
    by (apply nodeAt_replaceNode; by rewrite Hat).
  by rewrite replaceNode_replaceNode, <- app_assoc.
Qed.

End WebsiteListing.

(** *** The functions run on sample collaborators *)

Definition sampleProject : ProjectContext := {| dir := "/proj" |}.

Definition sampleStore : gmap string ListingProjectData :=
  {[ "/proj" := {| listingMap := Some {[ "blog/index.qmd" := ["posts/*.md"] ]} |} ]}.

Definition sampleResourcePath (p : string) : string := "/share/" +:+ p.

Definition sampleCategorySidebar (doc : Node)
    (ds : list (ListingDescriptor string)) (format : unit)
    (options : ListingSharedOptions) : Node * Node :=
  (Element "h5" [("class", "quarto-listing-category-title")] [TextNode "Categories"],
   Element "div" [("class", "quarto-listing-category")] []).

Definition sampleCreateFeed (doc : Node) (source : string)
    (project : ProjectContext) (ds : list (ListingDescriptor string))
    (options : gmap string JsValue) (format : unit) : option (list string) :=
  Some [posixJoin (dir project) "index.xml"].

Definition samplePipeline : MarkdownPipeline :=
  {| markdownAfterBody := ""; processRenderedMarkdown := λ doc, doc |}.

Definition sampleDocument : Node :=
  Element "html" []
    [Element "body" [] [Element "main" [("id", "quarto-document-content")] []]].

Definition sidebarDocument : Node :=
  Element "html" []
    [Element "body" []
       [Element "main" [] []; Element "div" [("id", "quarto-margin-sidebar")] []]].

Definition customListing : Listing :=
  {| listing_id := "recent-posts"; listing_type := Some Custom;
     listing_template := Some "missing.ejs.md"; listing_contents := ["posts/*.md"] |}.

Definition sampleWorld : World :=
  {| cache := sampleStore; written := []; tempFiles := 0 |}.

(** The path of [to] below the directory [from]. *)
Definition sampleRelative (from to : string) : string :=
  if String.prefix (from +:+ "/") to
  then substring (S (String.length from))
         (String.length to - S (String.length from)) to
  else to.

Definition sampleCreateFile (n : nat) (suffix : string) : string :=
  "/tmp/quarto-" +:+ pretty n +:+ "." +:+ suffix.

Definition sampleTemplateJsScript (id : string) (listing : Listing) (count : nat) : string :=
  "window.document.addEventListener('DOMContentLoaded', () => init('" +:+ id +:+ "'));".

Definition gridDescriptor : ListingDescriptor string :=
  {| listing := {| listing_id := "listing-posts"; listing_type := Some Grid;
                   listing_template := None; listing_contents := ["posts/*.md"] |};
     items := ["First post"; "Second post"] |}.

(** [listingHtmlDependencies] on the sample collaborators, for a page
    whose listings are [ds]. *)
Definition sampleListingHtmlDependencies (ds : list (ListingDescriptor string))
    (source : string) (w : World) : Result (option (FormatExtras unit)) * World :=
  listingHtmlDependencies unit string unit sampleRelative (λ p, p)
    sampleResourcePath (λ _, false) (λ _, tt) "bootstrap" sampleCreateFile
    (λ _ _ _, (ds, {| feed := None; categories := false |}))
    sampleTemplateJsScript (λ _ _, samplePipeline) sampleCategorySidebar
    sampleCreateFeed source sampleProject tt w.

Example sidebar_appended :
  listingPostProcess unit string sampleCategorySidebar sidebarDocument []
    {| feed := None; categories := true |} tt
  = Element "html" []
      [Element "body" []
         [Element "main" [] [];
          Element "div" [("id", "quarto-margin-sidebar")]
            [Element "h5" [("class", "quarto-listing-category-title")]
               [TextNode "Categories"];
             Element "div" [("class", "quarto-listing-category")] []]]].
Proof. reflexivity. Qed.

Example page_with_listing_is_cached :
  let w := {| cache := ∅; written := []; tempFiles := 0 |} in
  let after := (sampleListingHtmlDependencies [gridDescriptor] "/proj/blog/index.qmd" w).2 in
  listingMapOf sampleProject (cache after) = {[ "blog/index.qmd" := ["posts/*.md"] ]} ∧
  written after =
    [("/tmp/quarto-0.html",
      "<script>" +:+ String "010"
        "window.document.addEventListener('DOMContentLoaded', () => init('listing-posts'));</script>")] ∧
  tempFiles after = 1%nat.
Proof. split; [vm_compute; reflexivity | split; reflexivity]. Qed.

Example page_with_missing_template_throws :
  (sampleListingHtmlDependencies
     [gridDescriptor; {| listing := customListing; items := [] |}]
     "/proj/blog/index.qmd" sampleWorld).1
  = ThrowsError "The template missing.ejs.md can't be found.".
Proof. reflexivity. Qed.

Lemma listingSupplementalFiles_sound_witness :
  listingMapOf sampleProject sampleStore !! "blog/index.qmd" = Some ["posts/*.md"] ∧
  "posts/*.md" ∈ ["posts/*.md"] ∧
  "posts/a.md" ∈ ["index.qmd"; "posts/a.md"] ∧
  wildcardMatch (dir sampleProject) "posts/*.md" "posts/a.md" = true ∧
  posixJoin (dir sampleProject) "blog/index.qmd"
    ∈ (listingSupplementalFiles wildcardMatch posixJoin sampleProject
         ["index.qmd"; "posts/a.md"] true sampleStore).1 ∧
  NoDup (listingSupplementalFiles wildcardMatch posixJoin sampleProject
           ["index.qmd"; "posts/a.md"] true sampleStore).1.
Proof.
  assert (H1 : listingMapOf sampleProject sampleStore !! "blog/index.qmd"
               = Some ["posts/*.md"]) by (vm_compute; reflexivity).
  assert (H2 : "posts/*.md" ∈ ["posts/*.md"]) by (apply elem_of_cons; by left).
  assert (H3 : "posts/a.md" ∈ ["index.qmd"; "posts/a.md"])
    by (apply elem_of_cons; right; apply elem_of_cons; by left).
  assert (H4 : wildcardMatch (dir sampleProject) "posts/*.md" "posts/a.md" = true)
    by reflexivity.
  split; [exact H1 |]. split; [exact H2 |]. split; [exact H3 |].
  split; [exact H4 |].
  exact (listingSupplementalFiles_sound wildcardMatch posixJoin sampleProject
           _ sampleStore _ _ _ _ H1 H2 H3 H4).
Defined.

Lemma listingSupplementalFiles_scenario_witness :
  listingMapOf sampleProject sampleStore = {[ "blog/index.qmd" := ["posts/*.md"] ]} ∧
  wildcardMatch (dir sampleProject) "posts/*.md" "posts/a.md" = true ∧
  wildcardMatch (dir sampleProject) "posts/*.md" "readme.md" = false ∧
  (listingSupplementalFiles wildcardMatch posixJoin sampleProject
     ["posts/a.md"] true sampleStore).1
    = [posixJoin (dir sampleProject) "blog/index.qmd"] ∧
  (listingSupplementalFiles wildcardMatch posixJoin sampleProject
     ["readme.md"] true sampleStore).1 = [].
Proof.
  assert (H1 : listingMapOf sampleProject sampleStore
               = {[ "blog/index.qmd" := ["posts/*.md"] ]})
    by (vm_compute; reflexivity).
  assert (H2 : wildcardMatch (dir sampleProject) "posts/*.md" "posts/a.md" = true)
    by reflexivity.
  assert (H3 : wildcardMatch (dir sampleProject) "posts/*.md" "readme.md" = false)
    by reflexivity.
  split; [exact H1 |]. split; [exact H2 |]. split; [exact H3 |].
  exact (listingSupplementalFiles_scenario wildcardMatch posixJoin sampleProject
           sampleStore H1 H2 H3).
Defined.

(** C6 as stated fails: the call returns the path of the listing page
    joined to the project directory, not the bare relative path. *)
Lemma listingSupplementalFiles_scenario_counterexample :
  listingMapOf sampleProject sampleStore = {[ "blog/index.qmd" := ["posts/*.md"] ]} ∧
  (listingSupplementalFiles wildcardMatch posixJoin sampleProject
     ["posts/a.md"] true sampleStore).1 = ["/proj/blog/index.qmd"] ∧
  (listingSupplementalFiles wildcardMatch posixJoin sampleProject
     ["posts/a.md"] true sampleStore).1 ≠ ["blog/index.qmd"].
Proof.
  split; [vm_compute; reflexivity |].
  split; [vm_compute; reflexivity |].
  vm_compute. discriminate.
Qed.

Lemma feed_type_defaults_to_partial_witness :
  let options := {| feed := Some {[ "title" := VString "Blog" ]};
                    categories := false |} in
  feed options = Some {[ "title" := VString "Blog" ]} ∧
  ∃ listingOptions,
    run_feedCalls (listingPostProcessor unit string sampleCategorySidebar
                     sampleCreateFeed "/proj/blog/index.qmd" sampleProject tt []
                     options samplePipeline sampleDocument) = [listingOptions] ∧
    listingOptions !! "type"
      = Some (default (VString "partial")
                (({[ "title" := VString "Blog" ]} : gmap string JsValue) !! "type")) ∧
    ∀ key, key ≠ "type" →
      listingOptions !! key
      = ({[ "title" := VString "Blog" ]} : gmap string JsValue) !! key.
Proof.
  intros options. split; [reflexivity |].
  exact (feed_type_defaults_to_partial unit string sampleCategorySidebar
           sampleCreateFeed "/proj/blog/index.qmd" sampleProject tt []
           options samplePipeline sampleDocument _ eq_refl).
Defined.

(** C2 as stated fails: feed options that ask for the ["full"] type
    reach [createFeed] with the type ["full"]. *)
Lemma feed_type_full_counterexample :
  let options := {| feed := Some {[ "type" := VString "full" ]};
                    categories := false |} in
  ∃ listingOptions,
    run_feedCalls (listingPostProcessor unit string sampleCategorySidebar
                     sampleCreateFeed "/proj/blog/index.qmd" sampleProject tt []
                     options samplePipeline sampleDocument) = [listingOptions] ∧
    listingOptions !! "type" = Some (VString "full") ∧
    listingOptions !! "type" ≠ Some (VString "partial").
Proof.
  intros options. eexists. split; [reflexivity |].
  split; [vm_compute; reflexivity | vm_compute; discriminate].
Qed.

Lemma markdownHandler_dispatch_witness :
  let listing := {| listing_id := "recent-posts"; listing_type := Some Custom;
                    listing_template := None; listing_contents := ["posts/*.md"] |} in
  (listing_template listing = None ∨
   ∃ template, listing_template listing = Some template ∧
               (λ _ : string, false) template = false) ∧
  ∃ message,
    markdownHandler unit string sampleResourcePath (λ _, false) tt listing ["a"; "b"]
    = ThrowsError message.
Proof.
  intros listing.
  assert (H : listing_template listing = None ∨
              ∃ template, listing_template listing = Some template ∧
                          (λ _ : string, false) template = false) by (by left).
  split; [exact H |].
  exact (markdownHandler_dispatch unit string sampleResourcePath (λ _, false)
           tt listing ["a"; "b"] H).
Defined.

Lemma markdownHandler_custom_error_witness :
  listing_type customListing = Some Custom ∧
  markdownHandler unit string sampleResourcePath (λ _, false) tt customListing []
  = ThrowsError "The template missing.ejs.md can't be found." ∧
  Occurs "missing.ejs.md" "The template missing.ejs.md can't be found.".
Proof.
  split; [reflexivity |].
  exact (proj2 (markdownHandler_custom_error unit string sampleResourcePath
                  (λ _, false) tt customListing [] eq_refl)
           "missing.ejs.md" eq_refl eq_refl).
Defined.

(** C5 as stated fails: the message of a missing template names the
    path but not the listing, and the message of an unset template names
    neither. *)
Lemma markdownHandler_error_without_id_counterexample :
  (∃ message,
     markdownHandler unit string sampleResourcePath (λ _, false) tt customListing []
     = ThrowsError message ∧
     ¬ Occurs (listing_id customListing) message) ∧
  (let listing := {| listing_id := "recent-posts"; listing_type := Some Custom;
                     listing_template := None; listing_contents := [] |} in
   ∃ message,
     markdownHandler unit string sampleResourcePath (λ _, false) tt listing []
     = ThrowsError message ∧
     ¬ Occurs (listing_id listing) message).
Proof.
  split.
  - eexists. split; [reflexivity |].
    by apply includes_false_not_occurs.
  - intros listing. eexists. split; [reflexivity |].
    by apply includes_false_not_occurs.
Qed.

Lemma listingPostProcess_no_sidebar_witness :
  getElementById sampleDocument kMarginSidebarId = None ∧
  listingPostProcess unit string sampleCategorySidebar sampleDocument []
    {| feed := None; categories := true |} tt = sampleDocument.
Proof.
  split; [reflexivity |].
  exact (listingPostProcess_no_sidebar unit string sampleCategorySidebar
           sampleDocument [] {| feed := None; categories := true |} tt eq_refl).
Defined.

Lemma listingHtmlDependencies_no_listings_witness :
  ((λ (_ : string) (_ : ProjectContext) (_ : unit),
      ([] : list (ListingDescriptor string),
       {| feed := None; categories := false |}))
     "/proj/about.qmd" sampleProject tt).1 = [] ∧
  sampleListingHtmlDependencies [] "/proj/about.qmd" sampleWorld
  = (Returns None, sampleWorld).
Proof.
  split; [reflexivity |].
  exact (listingHtmlDependencies_no_listings unit string unit sampleRelative
           (λ p, p) sampleResourcePath (λ _, false) (λ _, tt) "bootstrap"
           sampleCreateFile
           (λ _ _ _, ([], {| feed := None; categories := false |}))
           sampleTemplateJsScript (λ _ _, samplePipeline) sampleCategorySidebar
           sampleCreateFeed "/proj/about.qmd" sampleProject tt sampleWorld eq_refl).
Defined.

(** *** Witnesses of the further properties *)

Lemma listingSupplementalFiles_only_matching_witness :
  "/proj/blog/index.qmd"
    ∈ (listingSupplementalFiles wildcardMatch posixJoin sampleProject
         ["readme.md"; "posts/a.md"] true sampleStore).1 ∧
  ∃ page globs glob file,
    listingMapOf sampleProject sampleStore !! page = Some globs ∧
    glob ∈ globs ∧ file ∈ ["readme.md"; "posts/a.md"] ∧
    wildcardMatch (dir sampleProject) glob file = true ∧
    "/proj/blog/index.qmd" = posixJoin (dir sampleProject) page.
Proof.
  assert (E : (listingSupplementalFiles wildcardMatch posixJoin sampleProject
                 ["readme.md"; "posts/a.md"] true sampleStore).1
              = ["/proj/blog/index.qmd"]) by (vm_compute; reflexivity).
  assert (H : "/proj/blog/index.qmd"
                ∈ (listingSupplementalFiles wildcardMatch posixJoin sampleProject
                     ["readme.md"; "posts/a.md"] true sampleStore).1)
    by (rewrite E; apply elem_of_cons; by left).
  split; [exact H |].
  exact (listingSupplementalFiles_only_matching wildcardMatch posixJoin
           sampleProject _ sampleStore _ H).
Defined.

Lemma listingSupplementalFiles_monotone_witness :
  ["posts/a.md"] ⊆ ["readme.md"; "posts/a.md"] ∧
  (listingSupplementalFiles wildcardMatch posixJoin sampleProject
     ["posts/a.md"] true sampleStore).1
    ⊆ (listingSupplementalFiles wildcardMatch posixJoin sampleProject
         ["readme.md"; "posts/a.md"] true sampleStore).1.
Proof.
  assert (H : ["posts/a.md"] ⊆ ["readme.md"; "posts/a.md"]).
  { intros x Hx. apply list_elem_of_singleton in Hx as ->.
    apply elem_of_cons. right. apply elem_of_cons. by left. }
  split; [exact H |].
  exact (listingSupplementalFiles_monotone wildcardMatch posixJoin sampleProject
           _ _ sampleStore H).
Defined.

Lemma listing_page_supplemented_after_render_witness :
  let w := {| cache := ∅; written := []; tempFiles := 0 |} in
  gridDescriptor ∈ [gridDescriptor] ∧
  "posts/*.md" ∈ listing_contents (listing _ gridDescriptor) ∧
  "posts/a.md" ∈ ["posts/a.md"] ∧
  wildcardMatch (dir sampleProject) "posts/*.md" "posts/a.md" = true ∧
  posixJoin (dir sampleProject) (sampleRelative (dir sampleProject) "/proj/blog/index.qmd")
    ∈ (listingSupplementalFiles wildcardMatch posixJoin sampleProject
         ["posts/a.md"] true
         (cache (sampleListingHtmlDependencies [gridDescriptor]
                   "/proj/blog/index.qmd" w).2)).1.
Proof.
  intros w.
  assert (H1 : gridDescriptor ∈ [gridDescriptor]) by (apply elem_of_cons; by left).
  assert (H2 : "posts/*.md" ∈ listing_contents (listing _ gridDescriptor))
    by (apply elem_of_cons; by left).
  assert (H3 : "posts/a.md" ∈ ["posts/a.md"]) by (apply elem_of_cons; by left).
  assert (H4 : wildcardMatch (dir sampleProject) "posts/*.md" "posts/a.md" = true)
    by reflexivity.
  split; [exact H1 |]. split; [exact H2 |]. split; [exact H3 |].
  split; [exact H4 |].
  exact (listing_page_supplemented_after_render unit string unit wildcardMatch
           posixJoin sampleRelative (λ p, p) sampleResourcePath (λ _, false)
           (λ _, tt) "bootstrap" sampleCreateFile
           (λ _ _ _, ([gridDescriptor], {| feed := None; categories := false |}))
           sampleTemplateJsScript (λ _ _, samplePipeline) sampleCategorySidebar
           sampleCreateFeed "/proj/blog/index.qmd" sampleProject tt w
           ["posts/a.md"] gridDescriptor "posts/*.md" "posts/a.md" H1 H2 H3 H4).
Defined.

Lemma markdownHandler_returns_witness :
  let handler := {| handler_template := "missing.ejs.md";
                    handler_listing := customListing;
                    handler_items := ["a"]; handler_format := tt;
                    handler_bundled := false |} in
  markdownHandler unit string sampleResourcePath (λ _, true) tt customListing ["a"]
    = Returns handler ∧
  handler_listing _ _ handler = customListing ∧
  handler_items _ _ handler = ["a"] ∧
  handler_format _ _ handler = tt ∧
  (handler_bundled _ _ handler = false ↔ listing_type customListing = Some Custom) ∧
  (listing_type customListing = Some Custom →
   listing_template customListing = Some (handler_template _ _ handler) ∧
   (λ _ : string, true) (handler_template _ _ handler) = true).
Proof.
  intros handler. split; [reflexivity |].
  exact (markdownHandler_returns unit string sampleResourcePath (λ _, true) tt
           customListing ["a"] handler eq_refl).
Defined.

Lemma listingPostProcess_sidebar_witness :
  let options := {| feed := None; categories := true |} in
  categories options = true ∧
  getElementById sidebarDocument kMarginSidebarId = Some [0; 1]%nat ∧
  ∃ tag attrs children,
    nodeAt sidebarDocument [0; 1]%nat = Some (Element tag attrs children) ∧
    hasId kMarginSidebarId attrs = true ∧
    listingPostProcess unit string sampleCategorySidebar sidebarDocument [] options tt
    = replaceNode sidebarDocument [0; 1]%nat
        (Element tag attrs
           (children ++
            [(sampleCategorySidebar sidebarDocument [] tt options).1;
             (sampleCategorySidebar sidebarDocument [] tt options).2])).
Proof.
  intros options. split; [reflexivity |]. split; [reflexivity |].
  exact (listingPostProcess_sidebar unit string sampleCategorySidebar
           sidebarDocument [] options tt [0; 1]%nat eq_refl eq_refl).
Defined.

End Listing.

(** ** [src/core/jupyter/preserve.ts]: [removeAndPreserveHtml] *)
Module Notebook.
Import JsString Preserve.

(** *** Data: the parts of a notebook that the function reads and writes *)

(** The value of a MIME bundle entry: a string or an array of lines. *)
Inductive MimeValue :=
| MimeString (text : string)
| MimeArray (lines : list string).

Record JupyterOutput := {
  output_type : string;
  data : gmap string MimeValue;
  noCaption : option bool
}.

Record JupyterCell := {
  cell_type : string;
  outputs : option (list JupyterOutput)
}.

Record JupyterNotebook := { cells : list JupyterCell }.

(** The object [htmlPreserve] and the number of uuids generated. *)
Record PreserveState := {
  htmlPreserve : list (string * string);
  generated : nat
}.

(** *** [isPlotlyLibrary] *)

(** The code units below 256 that [\s] matches. *)
Definition isWhiteSpace (c : ascii) : bool :=
  bool_decide (nat_of_ascii c ∈ [9; 10; 11; 12; 13; 32; 160]%nat).

Fixpoint skipWhiteSpace (s : string) : string :=
  match s with
  | EmptyString => EmptyString
  | String c s' => if isWhiteSpace c then skipWhiteSpace s' else s
  end.

Definition scriptTag : string :=
  "<script type=" +:+ String "034" ("text/javascript" +:+ String "034" ">").

(** [/^\s*<script type="text\/javascript">/.test(html) &&
    /define\('plotly'/.test(html)] *)
Definition isPlotlyLibrary (html : string) : bool :=
  String.prefix scriptTag (skipWhiteSpace html) &&
  includes html "define('plotly'".

(** *** Helpers *)

(** [o[key] = value] on an object whose keys are strings that are not
    array indices: a new key comes last, an old one keeps its place. *)
Fixpoint objectSet (o : list (string * string)) (key value : string)
    : list (string * string) :=
  match o with
  | [] => [(key, value)]
  | (k, v) :: o' => if decide (k = key) then (k, value) :: o'
                    else (k, v) :: objectSet o' key value
  end.

(** [s.replaceAll("-", "")] *)
Fixpoint removeDashes (s : string) : string :=
  match s with
  | EmptyString => EmptyString
  | String c s' => if decide (c = "-"%char) then removeDashes s'
                   else String c (removeDashes s')
  end.

(** [Array.isArray(html) ? html.join("") : html as string] *)
Definition htmlTextOf (html : MimeValue) : string :=
  match html with
  | MimeArray lines => String.concat "" lines
  | MimeString text => text
  end.

(** The truth value of a MIME bundle entry that is present. *)
Definition truthy (html : MimeValue) : bool :=
  match html with
  | MimeString text => negb (String.eqb text "")
  | MimeArray _ => true
  end.

Section RemoveAndPreserve.
Local Set Default Proof Using "Type".

(** [isDisplayData] of [display_data.ts], the MIME type constants of
    [mime.ts] and the uuid generator are imported; [generateUuid n] is
    the uuid of the [n]-th call. *)
Variable isDisplayData : JupyterOutput → bool.
Variable kTextHtml kTextMarkdown : string.
Variable generateUuid : nat → string.

Definition preserveKey (n : nat) : string :=
  "preserve" +:+ removeDashes (generateUuid n).

(** The callback of [cell.outputs?.forEach]. *)
Definition preserveOutput (st : PreserveState) (output : JupyterOutput)
    : PreserveState * JupyterOutput :=
  if isDisplayData output then
    match data output !! kTextHtml with
    | Some html =>
        let htmlText := htmlTextOf html in
        if truthy html && isPlotlyLibrary htmlText then
          let key := preserveKey (generated st) in
          ({| htmlPreserve := objectSet (htmlPreserve st) key htmlText;
              generated := S (generated st) |},
           {| output_type := output_type output;
              data := delete kTextHtml
                        (<[kTextMarkdown := MimeArray [key]]> (data output));
              noCaption := Some true |})
        else (st, output)
    | None => (st, output)
    end
  else (st, output).

Fixpoint preserveOutputs (st : PreserveState) (outs : list JupyterOutput)
    : PreserveState * list JupyterOutput :=
  match outs with
  | [] => (st, [])
  | output :: outs' =>
      let '(st, output) := preserveOutput st output in
      let '(st, outs') := preserveOutputs st outs' in
      (st, output :: outs')
  end.

(** The callback of [nb.cells.forEach]. *)
Definition preserveCell (st : PreserveState) (cell : JupyterCell)
    : PreserveState * JupyterCell :=
  if String.eqb (cell_type cell) "code" then
    match outputs cell with
    | Some outs =>
        let '(st, outs) := preserveOutputs st outs in
        (st, {| cell_type := cell_type cell; outputs := Some outs |})
    | None => (st, cell)
    end
  else (st, cell).

Fixpoint preserveCells (st : PreserveState) (cs : list JupyterCell)
    : PreserveState * list JupyterCell :=
  match cs with
  | [] => (st, [])
  | cell :: cs' =>
      let '(st, cell) := preserveCell st cell in
      let '(st, cs') := preserveCells st cs' in
      (st, cell :: cs')
  end.

(** The result of a call: what it returns, the notebook as the call
    leaves it, and the number of uuids generated so far. *)
Record Preserved := {
  returned : option (list (string * string));
  notebook : JupyterNotebook;
  uuids : nat
}.

(** [removeAndPreserveHtml(nb)], called when [n] uuids were generated. *)
Definition removeAndPreserveHtml (nb : JupyterNotebook) (n : nat) : Preserved :=
  let '(st, cs) := preserveCells {| htmlPreserve := []; generated := n |} (cells nb) in
  {| returned := if (0 <? length (objectKeys (htmlPreserve st)))%nat
                 then Some (htmlPreserve st) else None;
     notebook := {| cells := cs |};
     uuids := generated st |}.

(** *** Properties *)

(** An output whose HTML the function preserves. *)
Definition preservable (output : JupyterOutput) : bool :=
  isDisplayData output &&
  match data output !! kTextHtml with
  | Some html => truthy html && isPlotlyLibrary (htmlTextOf html)
  | None => false
  end.

(** The HTML text of an output. *)
Definition preservedText (output : JupyterOutput) : string :=
  match data output !! kTextHtml with
  | Some html => htmlTextOf html
  | None => ""
  end.

(** An output after its HTML was moved away under [key]. *)
Definition rewritten (key : string) (output : JupyterOutput) : JupyterOutput :=
  {| output_type := output_type output;
     data := delete kTextHtml (<[kTextMarkdown := MimeArray [key]]> (data output));
     noCaption := Some true |}.

(** The outputs of the code cells, in notebook order. *)
Definition codeOutputs (cs : list JupyterCell) : list JupyterOutput :=
  flat_map (λ cell, if String.eqb (cell_type cell) "code"
                    then default [] (outputs cell) else []) cs.

(** The keys and texts of a sequence of preservable outputs, the first
    key being that of uuid [n]. *)
Fixpoint expectedPreserve (n : nat) (pres : list JupyterOutput)
    : list (string * string) :=
  match pres with
  | [] => []
  | output :: pres' =>
      (preserveKey n, preservedText output) :: expectedPreserve (S n) pres'
  end.

Lemma preserveOutput_false (st : PreserveState) (output : JupyterOutput) :
  preservable output = false → preserveOutput st output = (st, output).
Proof.
  unfold preservable, preserveOutput. destruct (isDisplayData output); [|done].
  destruct (data output !! kTextHtml) as [html|]; [|done].
  cbn [andb]. by intros ->.
Qed.

Lemma preserveOutput_true (st : PreserveState) (output : JupyterOutput) :
  preservable output = true →
  preserveOutput st output
  = ({| htmlPreserve := objectSet (htmlPreserve st) (preserveKey (generated st))
                          (preservedText output);
        generated := S (generated st) |},
     rewritten (preserveKey (generated st)) output).
Proof.
  unfold preservable, preserveOutput, preservedText.
  destruct (isDisplayData output); [|done].
  destruct (data output !! kTextHtml) as [html|]; [|done].
  cbn [andb]. by intros ->.
Qed.

Lemma preservable_rewritten (key : string) (output : JupyterOutput) :
  preservable (rewritten key output) = false.
Proof.
  unfold preservable, rewritten. cbn [data].
  rewrite lookup_delete_eq. apply andb_false_r.
Qed.

Lemma expectedPreserve_app (n : nat) (a b : list JupyterOutput) :
  expectedPreserve n (a ++ b)
  = expectedPreserve n a ++ expectedPreserve (n + length a) b.
Proof.
  revert n. induction a as [|o a IH]; intros n.
  - cbn. by rewrite Nat.add_0_r.
  - cbn [app expectedPreserve length]. rewrite IH. do 3 f_equal. lia.
Qed.

Definition setEntry (m : list (string * string)) (kv : string * string)
    : list (string * string) :=
  objectSet m kv.1 kv.2.

(** The state after a run over outputs: the entries of the preservable
    ones were set one after the other. *)
Lemma preserveOutputs_state (st : PreserveState) (outs : list JupyterOutput) :
  (preserveOutputs st outs).1
  = {| htmlPreserve :=
         foldl setEntry (htmlPreserve st)
           (expectedPreserve (generated st) (List.filter preservable outs));
       generated := (generated st + length (List.filter preservable outs))%nat |}.
Proof.
  revert st. induction outs as [|o outs IH]; intros st.
  - cbn. rewrite Nat.add_0_r. by destruct st.
  - cbn [preserveOutputs List.filter].
    destruct (preservable o) eqn:Hp.
    + rewrite preserveOutput_true by done.
      specialize (IH {| htmlPreserve := objectSet (htmlPreserve st)
                                         (preserveKey (generated st)) (preservedText o);
                        generated := S (generated st) |}).
      destruct (preserveOutputs _ outs) as [st2 outs2]. cbn [fst] in IH |- *.
      rewrite IH. cbn [htmlPreserve generated expectedPreserve foldl length setEntry fst snd].
      f_equal. lia.
    + rewrite preserveOutput_false by done.
      specialize (IH st). destruct (preserveOutputs st outs) as [st2 outs2].
      by cbn [fst] in IH |- *.
Qed.

Lemma preserveCell_state (st : PreserveState) (cell : JupyterCell) :
  (preserveCell st cell).1
  = {| htmlPreserve :=
         foldl setEntry (htmlPreserve st)
           (expectedPreserve (generated st)
              (List.filter preservable (codeOutputs [cell])));
       generated := (generated st
                     + length (List.filter preservable (codeOutputs [cell])))%nat |}.
Proof.
  unfold preserveCell, codeOutputs. cbn [flat_map]. rewrite app_nil_r.
  destruct (String.eqb (cell_type cell) "code").
  - destruct (outputs cell) as [outs|]; cbn [default].
    + pose proof (preserveOutputs_state st outs) as H.
      destruct (preserveOutputs st outs) as [st2 outs2]. by cbn [fst] in H |- *.
    + cbn. rewrite Nat.add_0_r. by destruct st.
  - cbn. rewrite Nat.add_0_r. by destruct st.
Qed.

Lemma codeOutputs_cons (cell : JupyterCell) (cs : list JupyterCell) :
  codeOutputs (cell :: cs) = codeOutputs [cell] ++ codeOutputs cs.
Proof. unfold codeOutputs. cbn [flat_map]. by rewrite app_nil_r. Qed.

Lemma preserveCells_state (st : PreserveState) (cs : list JupyterCell) :
  (preserveCells st cs).1
  = {| htmlPreserve :=
         foldl setEntry (htmlPreserve st)
           (expectedPreserve (generated st)
              (List.filter preservable (codeOutputs cs)));
       generated := (generated st
                     + length (List.filter preservable (codeOutputs cs)))%nat |}.
Proof.
  revert st. induction cs as [|cell cs IH]; intros st.
  - cbn. rewrite Nat.add_0_r. by destruct st.
  - cbn [preserveCells]. pose proof (preserveCell_state st cell) as Hcell.
    destruct (preserveCell st cell) as [st1 cell1]. cbn [fst] in Hcell.
    specialize (IH st1). destruct (preserveCells st1 cs) as [st2 cs2].
    cbn [fst] in IH |- *. rewrite IH, Hcell. cbn [htmlPreserve generated].
    rewrite (codeOutputs_cons cell cs), List.filter_app, expectedPreserve_app,
      foldl_app, length_app.
    f_equal. lia.
Qed.

Lemma objectKeys_objectSet_nonempty (m : list (string * string)) (k v : string) :
  objectSet m k v ≠ [].
Proof. destruct m as [|[k' v'] m]; cbn; [done |]. by destruct (decide (k' = k)). Qed.

Lemma foldl_setEntry_nil (m l : list (string * string)) :
  foldl setEntry m l = [] → m = [] ∧ l = [].
Proof.
  revert m. induction l as [|kv l IH]; intros m; [done |].
  cbn [foldl]. intros H. apply IH in H as [H _].
  by apply objectKeys_objectSet_nonempty in H.
Qed.

Lemma List_filter_nil {A : Type} (f : A → bool) (l : list A) :
  List.filter f l = [] ↔ Forall (λ x, f x = false) l.
Proof.
  induction l as [|x l IH]; cbn [List.filter].
  - split; [constructor | done].
  - destruct (f x) eqn:E.
    + split; [done |]. intros H. apply Forall_cons in H as [H _]. congruence.
    + rewrite IH. split; [by constructor |]. by intros [_ ?]%Forall_cons.
Qed.

Lemma preserveOutputs_unchanged (st : PreserveState) (outs : list JupyterOutput) :
  Forall (λ o, preservable o = false) outs →
  preserveOutputs st outs = (st, outs).
Proof.
  induction 1 as [|o outs Ho _ IH]; [done |].
  cbn [preserveOutputs]. by rewrite preserveOutput_false, IH.
Qed.

Lemma preserveCells_unchanged (st : PreserveState) (cs : list JupyterCell) :
  Forall (λ o, preservable o = false) (codeOutputs cs) →
  preserveCells st cs = (st, cs).
Proof.
  induction cs as [|cell cs IH]; [done |].
  rewrite codeOutputs_cons, Forall_app. intros [Hcell Hcs].
  cbn [preserveCells]. unfold preserveCell.
  unfold codeOutputs in Hcell. cbn [flat_map] in Hcell. rewrite app_nil_r in Hcell.
  destruct (String.eqb (cell_type cell) "code").
  - destruct (outputs cell) as [outs|] eqn:Houts.
    + cbn [default] in Hcell. rewrite preserveOutputs_unchanged by done.
      rewrite (IH Hcs). f_equal. f_equal. destruct cell. cbn in *. by subst.
    + by rewrite (IH Hcs).
  - by rewrite (IH Hcs).
Qed.

(** X7.  The function returns [undefined] exactly when no output of a
    code cell is preservable (display data whose HTML is the plotly
    library script); in that case the notebook is left as it was and no
    uuid is generated. *)
Theorem removeAndPreserveHtml_undefined (nb : JupyterNotebook) (n : nat) :
  (returned (removeAndPreserveHtml nb n) = None ↔
   Forall (λ o, preservable o = false) (codeOutputs (cells nb))) ∧
  (returned (removeAndPreserveHtml nb n) = None →
   notebook (removeAndPreserveHtml nb n) = nb ∧
   uuids (removeAndPreserveHtml nb n) = n).
Proof.
  assert (Hiff : returned (removeAndPreserveHtml nb n) = None ↔
                 Forall (λ o, preservable o = false) (codeOutputs (cells nb))).
  { unfold removeAndPreserveHtml.
    pose proof (preserveCells_state {| htmlPreserve := []; generated := n |}
                  (cells nb)) as Hst.
    destruct (preserveCells _ (cells nb)) as [st cs]. cbn [fst] in Hst.
    cbn [returned]. rewrite Hst. cbn [htmlPreserve generated].
    rewrite <- List_filter_nil. unfold objectKeys. rewrite length_fmap.
    destruct (foldl setEntry [] _) as [|kv m] eqn:E.
    - apply foldl_setEntry_nil in E as [_ E]. split; [intros _ | done].
      by destruct (List.filter preservable (codeOutputs (cells nb))).
    - cbn. split; [done |]. intros Hnil. by rewrite Hnil in E. }
  split; [exact Hiff |]. intros Hnone. apply Hiff in Hnone.
  unfold removeAndPreserveHtml. rewrite preserveCells_unchanged by done.
  cbn. by destruct nb.
Qed.

Lemma preserveOutputs_not_preservable (st : PreserveState)
    (outs : list JupyterOutput) :
  Forall (λ o, preservable o = false) (preserveOutputs st outs).2.
Proof.
  revert st. induction outs as [|o outs IH]; intros st; [constructor |].
  cbn [preserveOutputs]. destruct (preservable o) eqn:Hp.
  - rewrite preserveOutput_true by done.
    specialize (IH {| htmlPreserve := objectSet (htmlPreserve st)
                                       (preserveKey (generated st)) (preservedText o);
                      generated := S (generated st) |}).
    destruct (preserveOutputs _ outs) as [st2 outs2]. cbn [snd] in IH |- *.
    constructor; [apply preservable_rewritten | done].
  - rewrite preserveOutput_false by done. specialize (IH st).
    destruct (preserveOutputs st outs) as [st2 outs2]. cbn [snd] in IH |- *.
    by constructor.
Qed.

Lemma preserveCells_not_preservable (st : PreserveState) (cs : list JupyterCell) :
  Forall (λ o, preservable o = false) (codeOutputs (preserveCells st cs).2).
Proof.
  revert st. induction cs as [|cell cs IH]; intros st; [constructor |].
  cbn [preserveCells]. unfold preserveCell.
  destruct (String.eqb (cell_type cell) "code") eqn:Hcode.
  - destruct (outputs cell) as [outs|] eqn:Houts.
    + pose proof (preserveOutputs_not_preservable st outs) as Houts'.
      destruct (preserveOutputs st outs) as [st1 outs1]. cbn [snd] in Houts'.
      specialize (IH st1). destruct (preserveCells st1 cs) as [st2 cs2].
      cbn [snd] in IH |- *. rewrite codeOutputs_cons. apply Forall_app. split; [|done].
      unfold codeOutputs. cbn [flat_map cell_type outputs]. rewrite Hcode, app_nil_r.
      done.
    + specialize (IH st). destruct (preserveCells st cs) as [st2 cs2].
      cbn [snd] in IH |- *. rewrite codeOutputs_cons. apply Forall_app. split; [|done].
      unfold codeOutputs. cbn [flat_map]. rewrite Hcode, Houts. constructor.
  - specialize (IH st). destruct (preserveCells st cs) as [st2 cs2].
    cbn [snd] in IH |- *. rewrite codeOutputs_cons. apply Forall_app. split; [|done].
    unfold codeOutputs. cbn [flat_map]. rewrite Hcode. constructor.
Qed.

(** X8.  A second call finds nothing to preserve: applied to the
    notebook that a first call left, the function returns [undefined],
    changes nothing and generates no uuid. *)
Theorem removeAndPreserveHtml_idempotent (nb : JupyterNotebook) (n : nat) :
  let first := removeAndPreserveHtml nb n in
  removeAndPreserveHtml (notebook first) (uuids first)
  = {| returned := None; notebook := notebook first; uuids := uuids first |}.
Proof.
  intros first.
  assert (H : Forall (λ o, preservable o = false) (codeOutputs (cells (notebook first)))).
  { subst first. unfold removeAndPreserveHtml.
    pose proof (preserveCells_not_preservable
                  {| htmlPreserve := []; generated := n |} (cells nb)) as H.
    by destruct (preserveCells _ (cells nb)) as [st cs]. }
  unfold removeAndPreserveHtml at 1. rewrite preserveCells_unchanged by done.
  cbn. by destruct (notebook first).
Qed.

Lemma objectSet_fresh (m : list (string * string)) (k v : string) :
  k ∉ objectKeys m → objectSet m k v = m ++ [(k, v)].
Proof.
  unfold objectKeys. induction m as [|[k' v'] m IH]; [done |].
  cbn [fmap list_fmap fst objectSet app]. rewrite not_elem_of_cons. intros [Hne Hk].
  rewrite decide_False by done. by rewrite IH.
Qed.

Lemma foldl_setEntry_fresh (m l : list (string * string)) :
  NoDup (objectKeys (m ++ l)) → foldl setEntry m l = m ++ l.
Proof.
  revert m. induction l as [|[k v] l IH]; intros m Hnd.
  - by rewrite app_nil_r.
  - cbn [foldl]. unfold setEntry at 2. cbn [fst snd].
    assert (Hk : k ∉ objectKeys m).
    { unfold objectKeys in *. rewrite fmap_app in Hnd.
      apply NoDup_app in Hnd as (_ & Hdisj & _). intros Hin.
      apply (Hdisj k Hin). cbn. apply elem_of_cons. by left. }
    rewrite objectSet_fresh by done. rewrite IH.
    + by rewrite <- app_assoc.
    + by rewrite <- app_assoc.
Qed.

(** What is returned, when the keys that are generated are distinct. *)
Lemma removeAndPreserveHtml_returned (nb : JupyterNotebook) (n : nat) :
  NoDup (objectKeys (expectedPreserve n
           (List.filter preservable (codeOutputs (cells nb))))) →
  returned (removeAndPreserveHtml nb n)
  = match List.filter preservable (codeOutputs (cells nb)) with
    | [] => None
    | pres => Some (expectedPreserve n pres)
    end ∧
  uuids (removeAndPreserveHtml nb n)
  = (n + length (List.filter preservable (codeOutputs (cells nb))))%nat.
Proof.
  intros Hnd. unfold removeAndPreserveHtml.
  pose proof (preserveCells_state {| htmlPreserve := []; generated := n |}
                (cells nb)) as Hst.
  destruct (preserveCells _ (cells nb)) as [st cs]. cbn [fst] in Hst.
  cbn [returned uuids]. rewrite Hst. cbn [htmlPreserve generated].
  split; [|done]. rewrite foldl_setEntry_fresh by done. cbn [app].
  by destruct (List.filter preservable (codeOutputs (cells nb))).
Qed.

(** X9.  When the keys made from the uuids are distinct, the object
    returned for a notebook with preservable outputs holds one entry per
    such output, in notebook order: the key made from the next uuid, and
    the HTML text of the output; as many uuids are generated as there
    are such outputs. *)
Theorem removeAndPreserveHtml_entries (nb : JupyterNotebook) (n : nat) :
  NoDup (objectKeys (expectedPreserve n
           (List.filter preservable (codeOutputs (cells nb))))) →
  List.filter preservable (codeOutputs (cells nb)) ≠ [] →
  returned (removeAndPreserveHtml nb n)
  = Some (expectedPreserve n
            (List.filter preservable (codeOutputs (cells nb)))) ∧
  uuids (removeAndPreserveHtml nb n)
  = (n + length (List.filter preservable (codeOutputs (cells nb))))%nat.
Proof.
  intros Hnd Hne. destruct (removeAndPreserveHtml_returned nb n Hnd) as [-> ->].
  split; [|done].
  by destruct (List.filter preservable (codeOutputs (cells nb))).
Qed.

Fixpoint hasDash (s : string) : bool :=
  match s with
  | EmptyString => false
  | String c s' => bool_decide (c = "-"%char) || hasDash s'
  end.

Lemma hasDash_append (a b : string) : hasDash (a +:+ b) = hasDash a || hasDash b.
Proof.
  induction a as [|c a IH]; [done |].
  rewrite append_cons. cbn [hasDash]. by rewrite IH, orb_assoc.
Qed.

Lemma hasDash_removeDashes (s : string) : hasDash (removeDashes s) = false.
Proof.
  induction s as [|c s IH]; [done |]. cbn [removeDashes].
  destruct (decide (c = "-"%char)) as [|Hne]; [done |].
  cbn [hasDash]. by rewrite bool_decide_eq_false_2, IH.
Qed.

Lemma Occurs_dash_hasDash (s : string) : Occurs "-" s → hasDash s = true.
Proof.
  intros (pre & post & ->). rewrite !hasDash_append. cbn. apply orb_true_r.
Qed.

Lemma objectKeys_objectSet (m : list (string * string)) (k v k' : string) :
  k' ∈ objectKeys (objectSet m k v) → k' = k ∨ k' ∈ objectKeys m.
Proof.
  unfold objectKeys. induction m as [|[k0 v0] m IH]; cbn [objectSet].
  - cbn. rewrite list_elem_of_singleton. by left.
  - destruct (decide (k0 = k)) as [->|Hne]; cbn; rewrite !elem_of_cons.
    + intros [->|?]; [by left | by right; right].
    + intros [->|Hin]; [by right; left |].
      destruct (IH Hin) as [->|?]; [by left | by right; right].
Qed.

Lemma objectKeys_foldl_setEntry (m l : list (string * string)) (k : string) :
  k ∈ objectKeys (foldl setEntry m l) → k ∈ objectKeys m ∨ k ∈ objectKeys l.
Proof.
  revert m. induction l as [|[k0 v0] l IH]; intros m; cbn [foldl].
  - by left.
  - intros Hin. destruct (IH _ Hin) as [Hset|Hl].
    + apply objectKeys_objectSet in Hset as [->|Hm]; [right | by left].
      unfold objectKeys. cbn. apply elem_of_cons. by left.
    + right. unfold objectKeys in *. cbn. apply elem_of_cons. by right.
Qed.

Lemma objectKeys_expectedPreserve (n : nat) (pres : list JupyterOutput) (k : string) :
  k ∈ objectKeys (expectedPreserve n pres) →
  ∃ i, (n ≤ i < n + length pres)%nat ∧ k = preserveKey i.
Proof.
  revert n. induction pres as [|o pres IH]; intros n.
  - intros Hin. by apply elem_of_nil in Hin.
  - unfold objectKeys. cbn [expectedPreserve fmap list_fmap fst length].
    rewrite elem_of_cons. intros [->|Hin].
    + exists n. split; [lia | done].
    + destruct (IH _ Hin) as (i & Hi & ->). exists i. split; [lia | done].
Qed.

(** X10.  Every key of the object returned is ["preserve"] followed by
    one of the uuids generated during the call with its dashes taken
    out, and no key contains a dash. *)
Theorem removeAndPreserveHtml_keys (nb : JupyterNotebook) (n : nat)
    (m : list (string * string)) (key : string) :
  returned (removeAndPreserveHtml nb n) = Some m →
  key ∈ objectKeys m →
  (∃ i, (n ≤ i < uuids (removeAndPreserveHtml nb n))%nat ∧
        key = "preserve" +:+ removeDashes (generateUuid i)) ∧
  ¬ Occurs "-" key.
Proof.
  unfold removeAndPreserveHtml.
  pose proof (preserveCells_state {| htmlPreserve := []; generated := n |}
                (cells nb)) as Hst.
  destruct (preserveCells _ (cells nb)) as [st cs]. cbn [fst] in Hst.
  cbn [returned uuids]. rewrite Hst. cbn [htmlPreserve generated].
  destruct (0 <? _)%nat; [|done]. intros [= <-] Hkey.
  apply objectKeys_foldl_setEntry in Hkey as [Hkey|Hkey];
    [by apply elem_of_nil in Hkey |].
  apply objectKeys_expectedPreserve in Hkey as (i & Hi & ->).
  split; [by exists i |]. intros Hocc. apply Occurs_dash_hasDash in Hocc.
  unfold preserveKey in Hocc. rewrite hasDash_append, hasDash_removeDashes in Hocc.
  done.
Qed.

Lemma length_preserveOutputs (st : PreserveState) (outs : list JupyterOutput) :
  length (preserveOutputs st outs).2 = length outs.
Proof.
  revert st. induction outs as [|o outs IH]; intros st; [done |].
  cbn [preserveOutputs]. destruct (preserveOutput st o) as [st1 o1].
  specialize (IH st1). destruct (preserveOutputs st1 outs) as [st2 outs2].
  cbn [snd length] in IH |- *. by rewrite IH.
Qed.

(** X11.  The call keeps the shape of the notebook: cell for cell the
    type and the number of outputs stay, and a cell that is not a code
    cell is left as it is. *)
Theorem removeAndPreserveHtml_shape (nb : JupyterNotebook) (n : nat) :
  Forall2 (λ cell cell',
             cell_type cell' = cell_type cell ∧
             length <$> outputs cell' = length <$> outputs cell ∧
             (String.eqb (cell_type cell) "code" = false → cell' = cell))
    (cells nb) (cells (notebook (removeAndPreserveHtml nb n))).
Proof.
  unfold removeAndPreserveHtml.
  generalize {| htmlPreserve := []; generated := n |}.
  induction (cells nb) as [|cell cs IH]; intros st; [constructor |].
  cbn [preserveCells].
  assert (Hcell : cell_type (preserveCell st cell).2 = cell_type cell ∧
                  length <$> outputs (preserveCell st cell).2 = length <$> outputs cell ∧
                  (String.eqb (cell_type cell) "code" = false →
                   (preserveCell st cell).2 = cell)).
  { unfold preserveCell. destruct (String.eqb (cell_type cell) "code"); [|done].
    destruct (outputs cell) as [outs|] eqn:Houts; [|by cbn; rewrite Houts].
    pose proof (length_preserveOutputs st outs) as Hlen.
    destruct (preserveOutputs st outs) as [st1 outs1]. cbn in Hlen |- *.
    by rewrite Hlen. }
  destruct (preserveCell st cell) as [st1 cell1]. cbn [snd] in Hcell.
  specialize (IH st1). destruct (preserveCells st1 cs) as [st2 cs2].
  cbn [notebook cells] in IH |- *. by constructor.
Qed.

(** An output and what the call makes of it, for the object [m] that
    the call returns. *)
Definition Rewritten (m : list (string * string))
    (output output' : JupyterOutput) : Prop :=
  if preservable output
  then ∃ key, output' = rewritten key output ∧
              objectGet m key = Some (preservedText output)
  else output' = output.

Lemma preserveOutputs_Rewritten (m : list (string * string))
    (st : PreserveState) (outs : list JupyterOutput) :
  (∀ kv, kv ∈ expectedPreserve (generated st) (List.filter preservable outs) →
         objectGet m kv.1 = Some kv.2) →
  Forall2 (Rewritten m) outs (preserveOutputs st outs).2.
Proof.
  revert st. induction outs as [|o outs IH]; intros st Hm; [constructor |].
  cbn [preserveOutputs]. cbn [List.filter] in Hm.
  destruct (preservable o) eqn:Hp.
  - rewrite preserveOutput_true by done.
    cbn [expectedPreserve] in Hm.
    specialize (IH {| htmlPreserve := objectSet (htmlPreserve st)
                                       (preserveKey (generated st)) (preservedText o);
                      generated := S (generated st) |}).
    destruct (preserveOutputs _ outs) as [st2 outs2]. cbn [snd] in IH |- *.
    constructor.
    + unfold Rewritten. rewrite Hp. exists (preserveKey (generated st)).
      split; [done |]. apply (Hm (_, _)). apply elem_of_cons. by left.
    + apply IH. intros kv Hkv. apply Hm. apply elem_of_cons. by right.
  - rewrite preserveOutput_false by done. specialize (IH st).
    destruct (preserveOutputs st outs) as [st2 outs2]. cbn [snd] in IH |- *.
    constructor; [|by apply IH]. unfold Rewritten. by rewrite Hp.
Qed.

Lemma preserveCells_Rewritten (m : list (string * string))
    (st : PreserveState) (cs : list JupyterCell) :
  (∀ kv, kv ∈ expectedPreserve (generated st)
                (List.filter preservable (codeOutputs cs)) →
         objectGet m kv.1 = Some kv.2) →
  Forall2 (Rewritten m) (codeOutputs cs) (codeOutputs (preserveCells st cs).2).
Proof.
  revert st. induction cs as [|cell cs IH]; intros st Hm; [constructor |].
  rewrite (codeOutputs_cons cell cs), List.filter_app, expectedPreserve_app in Hm.
  cbn [preserveCells].
  pose proof (preserveCell_state st cell) as Hst.
  assert (Hcell : Forall2 (Rewritten m) (codeOutputs [cell])
                    (codeOutputs [(preserveCell st cell).2])).
  { unfold preserveCell, codeOutputs. cbn [flat_map]. rewrite !app_nil_r.
    destruct (String.eqb (cell_type cell) "code") eqn:Hcode.
    - destruct (outputs cell) as [outs|] eqn:Houts.
      + pose proof (preserveOutputs_Rewritten m st outs) as H.
        destruct (preserveOutputs st outs) as [st1 outs1].
        cbn [snd cell_type outputs default] in H |- *. rewrite Hcode. cbn [default].
        apply H. intros kv Hkv. apply Hm. apply elem_of_app. left.
        unfold codeOutputs. cbn [flat_map]. by rewrite Hcode, Houts, app_nil_r.
      + cbn [snd]. rewrite Hcode, Houts. constructor.
    - cbn [snd]. rewrite Hcode. constructor. }
  destruct (preserveCell st cell) as [st1 cell1]. cbn [fst snd] in Hst, Hcell.
  specialize (IH st1). destruct (preserveCells st1 cs) as [st2 cs2].
  cbn [snd] in IH |- *.
  rewrite (codeOutputs_cons cell cs), (codeOutputs_cons cell1 cs2).
  apply Forall2_app; [done |]. apply IH. intros kv Hkv. apply Hm.
  apply elem_of_app. right. by rewrite Hst in Hkv.
Qed.

(** X12.  Placeholder and fragment belong together: when the keys made
    from the uuids are distinct and the call returns the object [m],
    every output of a code cell that was not preservable is left as it
    was, and every preservable one has lost its HTML entry, is marked
    [noCaption], and has as markdown the one key under which [m] holds
    the HTML text that the output had. *)
Theorem removeAndPreserveHtml_outputs (nb : JupyterNotebook) (n : nat)
    (m : list (string * string)) :
  NoDup (objectKeys (expectedPreserve n
           (List.filter preservable (codeOutputs (cells nb))))) →
  returned (removeAndPreserveHtml nb n) = Some m →
  Forall2 (Rewritten m) (codeOutputs (cells nb))
    (codeOutputs (cells (notebook (removeAndPreserveHtml nb n)))).
Proof.
  intros Hnd Hm. destruct (removeAndPreserveHtml_returned nb n Hnd) as [Hret _].
  rewrite Hm in Hret.
  assert (Hexp : m = expectedPreserve n
                       (List.filter preservable (codeOutputs (cells nb)))).
  { destruct (List.filter preservable (codeOutputs (cells nb))); [done |].
    by injection Hret. }
  unfold removeAndPreserveHtml.
  pose proof (preserveCells_Rewritten m {| htmlPreserve := []; generated := n |}
                (cells nb)) as H.
  destruct (preserveCells _ (cells nb)) as [st cs]. cbn [snd] in H.
  cbn [notebook cells]. apply H. cbn [generated]. rewrite <- Hexp.
  intros [k v] Hkv. cbn [fst snd]. apply objectGet_NoDup; [|done].
  by rewrite Hexp.
Qed.

(** X13.  Round trip for a notebook with one preservable output [o]:
    in a text in which the key first occurs between [pre] and [post],
    [restorePreservedHtml] with the object that [removeAndPreserveHtml]
    returned puts the HTML text of [o] back in the place of the key. *)
Theorem preserve_restore_round_trip (nb : JupyterNotebook) (n : nat)
    (o : JupyterOutput) (html pre post : string) :
  List.filter preservable (codeOutputs (cells nb)) = [o] →
  FirstOccurrence (preserveKey n) html pre post →
  restorePreservedHtml html (returned (removeAndPreserveHtml nb n))
  = pre +:+ preservedText o +:+ post.
Proof.
  intros Hone Hfirst.
  destruct (removeAndPreserveHtml_returned nb n) as [-> _].
  { rewrite Hone. cbn. apply NoDup_singleton. }
  rewrite Hone. cbn [expectedPreserve restorePreservedHtml objectKeys fmap
                     list_fmap fst fold_left].
  apply restoreKey_first; [|done]. cbn [objectGet]. by rewrite decide_True.
Qed.

End RemoveAndPreserve.

(** *** The function run on a sample notebook *)

Definition sampleIsDisplayData (output : JupyterOutput) : bool :=
  String.eqb (output_type output) "display_data".

Definition sampleUuid (n : nat) : string :=
  "1b9d6bcd-bbfd-4b2d-9b5d-ab8dfbbd4be" +:+ pretty n.

Definition plotlyScript : string :=
  String "010" "  " +:+ scriptTag +:+
  "window.PlotlyConfig = {}; define('plotly', function() {});</script>".

Definition plotlyOutput : JupyterOutput :=
  {| output_type := "display_data";
     data := {[ "text/html" := MimeArray [plotlyScript; "<div id='plot'></div>"] ]};
     noCaption := None |}.

Definition tableOutput : JupyterOutput :=
  {| output_type := "display_data";
     data := {[ "text/html" := MimeString "<table></table>" ]};
     noCaption := None |}.

Definition streamOutput : JupyterOutput :=
  {| output_type := "stream"; data := ∅; noCaption := None |}.

Definition sampleNotebook : JupyterNotebook :=
  {| cells :=
       [ {| cell_type := "markdown"; outputs := None |};
         {| cell_type := "code"; outputs := Some [streamOutput; plotlyOutput] |};
         {| cell_type := "code"; outputs := Some [tableOutput] |} ] |}.

Definition samplePreservable : JupyterOutput → bool :=
  preservable sampleIsDisplayData "text/html".

Definition sampleRemoveAndPreserveHtml : JupyterNotebook → nat → Preserved :=
  removeAndPreserveHtml sampleIsDisplayData "text/html" "text/markdown" sampleUuid.

Example sample_notebook_preserved :
  returned (sampleRemoveAndPreserveHtml sampleNotebook 0)
  = Some [("preserve1b9d6bcdbbfd4b2d9b5dab8dfbbd4be0",
           plotlyScript +:+ "<div id='plot'></div>")] ∧
  codeOutputs (cells (notebook (sampleRemoveAndPreserveHtml sampleNotebook 0)))
  = [ streamOutput;
      {| output_type := "display_data";
         data := {[ "text/markdown" :=
                      MimeArray ["preserve1b9d6bcdbbfd4b2d9b5dab8dfbbd4be0"] ]};
         noCaption := Some true |};
      tableOutput ].
Proof. split; vm_compute; reflexivity. Qed.

Lemma removeAndPreserveHtml_entries_witness :
  let pres := List.filter samplePreservable (codeOutputs (cells sampleNotebook)) in
  NoDup (objectKeys (expectedPreserve "text/html" sampleUuid 0 pres)) ∧
  pres ≠ [] ∧
  returned (sampleRemoveAndPreserveHtml sampleNotebook 0)
  = Some (expectedPreserve "text/html" sampleUuid 0 pres) ∧
  uuids (sampleRemoveAndPreserveHtml sampleNotebook 0) = (0 + length pres)%nat.
Proof.
  intros pres.
  assert (H1 : NoDup (objectKeys (expectedPreserve "text/html" sampleUuid 0 pres)))
    by (vm_compute; apply NoDup_singleton).
  assert (H2 : pres ≠ []) by (vm_compute; discriminate).
  split; [exact H1 |]. split; [exact H2 |].
  exact (removeAndPreserveHtml_entries sampleIsDisplayData "text/html"
           "text/markdown" sampleUuid sampleNotebook 0 H1 H2).
Defined.

Lemma removeAndPreserveHtml_keys_witness :
  let m := [("preserve1b9d6bcdbbfd4b2d9b5dab8dfbbd4be0",
             plotlyScript +:+ "<div id='plot'></div>")] in
  let key := "preserve1b9d6bcdbbfd4b2d9b5dab8dfbbd4be0" in
  returned (sampleRemoveAndPreserveHtml sampleNotebook 0) = Some m ∧
  key ∈ objectKeys m ∧
  (∃ i, (0 ≤ i < uuids (sampleRemoveAndPreserveHtml sampleNotebook 0))%nat ∧
        key = "preserve" +:+ removeDashes (sampleUuid i)) ∧
  ¬ Occurs "-" key.
Proof.
  intros m key.
  assert (H1 : returned (sampleRemoveAndPreserveHtml sampleNotebook 0) = Some m)
    by (vm_compute; reflexivity).
  assert (H2 : key ∈ objectKeys m) by (apply elem_of_cons; by left).
  split; [exact H1 |]. split; [exact H2 |].
  exact (removeAndPreserveHtml_keys sampleIsDisplayData "text/html"
           "text/markdown" sampleUuid sampleNotebook 0 m key H1 H2).
Defined.

Lemma removeAndPreserveHtml_outputs_witness :
  let m := [("preserve1b9d6bcdbbfd4b2d9b5dab8dfbbd4be0",
             plotlyScript +:+ "<div id='plot'></div>")] in
  NoDup (objectKeys (expectedPreserve "text/html" sampleUuid 0
           (List.filter samplePreservable (codeOutputs (cells sampleNotebook))))) ∧
  returned (sampleRemoveAndPreserveHtml sampleNotebook 0) = Some m ∧
  Forall2 (Rewritten sampleIsDisplayData "text/html" "text/markdown" m)
    (codeOutputs (cells sampleNotebook))
    (codeOutputs (cells (notebook (sampleRemoveAndPreserveHtml sampleNotebook 0)))).
Proof.
  intros m.
  assert (H1 : NoDup (objectKeys (expectedPreserve "text/html" sampleUuid 0
                 (List.filter samplePreservable (codeOutputs (cells sampleNotebook))))))
    by (vm_compute; apply NoDup_singleton).
  assert (H2 : returned (sampleRemoveAndPreserveHtml sampleNotebook 0) = Some m)
    by (vm_compute; reflexivity).
  split; [exact H1 |]. split; [exact H2 |].
  exact (removeAndPreserveHtml_outputs sampleIsDisplayData "text/html"
           "text/markdown" sampleUuid sampleNotebook 0 m H1 H2).
Defined.

Lemma preserve_restore_round_trip_witness :
  let html := "<div>preserve1b9d6bcdbbfd4b2d9b5dab8dfbbd4be0</div>" in
  List.filter samplePreservable (codeOutputs (cells sampleNotebook)) = [plotlyOutput] ∧
  FirstOccurrence (preserveKey sampleUuid 0) html "<div>" "</div>" ∧
  restorePreservedHtml html (returned (sampleRemoveAndPreserveHtml sampleNotebook 0))
  = "<div>" +:+ preservedText "text/html" plotlyOutput +:+ "</div>".
Proof.
  intros html.
  assert (H1 : List.filter samplePreservable (codeOutputs (cells sampleNotebook))
               = [plotlyOutput]) by (vm_compute; reflexivity).
  assert (H2 : FirstOccurrence (preserveKey sampleUuid 0) html "<div>" "</div>")
    by (apply FirstOccurrence_indexOf; vm_compute; reflexivity).
  split; [exact H1 |]. split; [exact H2 |].
  exact (preserve_restore_round_trip sampleIsDisplayData "text/html"
           "text/markdown" sampleUuid sampleNotebook 0 plotlyOutput html
           "<div>" "</div>" H1 H2).
Defined.

End Notebook.

(** ** [restorePreservedHtml]: a key that does not occur *)
Module PreserveFacts.
Import JsString Preserve.

Lemma substring_zero_length (n : nat) (s : string) : substring n 0 s = "".
Proof.
  revert s. induction n as [|n IH]; intros s; destruct s as [|c s]; cbn; auto.
Qed.

Lemma indexOfFrom_found_occurs (key hay : string) (i : Z) :
  indexOfFrom key hay i ≠ -1 → Occurs key hay.
Proof.
  revert i. induction hay as [|c hay IH]; intros i; cbn [indexOfFrom].
  - destruct (String.prefix key "") eqn:Hp; [|done]. intros _.
    destruct (prefix_inv _ _ Hp) as [post Hpost]. by exists "", post.
  - destruct (String.prefix key (String c hay)) eqn:Hp.
    + intros _. destruct (prefix_inv _ _ Hp) as [post Hpost]. by exists "", post.
    + intros H. destruct (IH _ H) as (pre & post & ->).
      by exists (String c pre), post.
Qed.

Lemma indexOf_not_occurs (hay key : string) :
  ¬ Occurs key hay → indexOf hay key = -1.
Proof.
  intros Hno. unfold indexOf.
  destruct (Z.eq_dec (indexOfFrom key hay 0) (-1)) as [|Hne]; [done |].
  by apply indexOfFrom_found_occurs in Hne.
Qed.

(** X14.  A key that does not occur in the text is substituted all the
    same: [indexOf] gives [-1], so the fragment is put in before the
    last character of the text, followed by the text from position
    [key.length - 1] on. *)
Theorem restorePreservedHtml_missing_key (html key fragment : string) :
  ¬ Occurs key html →
  restorePreservedHtml html (Some [(key, fragment)])
  = substring 0 (String.length html - 1) html +:+ fragment +:+
    substring (String.length key - 1)
      (String.length html - (String.length key - 1)) html.
Proof.
  intros Hno.
  assert (Hkey : (1 ≤ String.length key)%nat).
  { destruct key as [|c key]; [|cbn; lia]. exfalso. apply Hno. by exists "", html. }
  cbn [restorePreservedHtml objectKeys fmap list_fmap fst fold_left].
  unfold restoreKey. rewrite (indexOf_not_occurs html key Hno).
  cbn [objectGet]. rewrite decide_True by done. cbn [concatOperand].
  f_equal; [|f_equal].
  - unfold slice, relativeIndex.
    replace (0 <? 0) with false by done. replace (-1 <? 0) with true by done.
    f_equal; lia.
  - unfold slice, relativeIndex.
    destruct (Z.ltb_spec (-1 + Z.of_nat (String.length key)) 0) as [|_]; [lia |].
    destruct (Nat.le_gt_cases (String.length key - 1) (String.length html)) as [Hle|Hgt].
    + f_equal; lia.
    + replace (Z.to_nat (Z.max _ 0)) with 0%nat by lia.
      replace (String.length html - (String.length key - 1))%nat with 0%nat by lia.
      by rewrite !substring_zero_length.
Qed.

Lemma restorePreservedHtml_missing_key_witness :
  ¬ Occurs "zz" "abcd" ∧
  restorePreservedHtml "abcd" (Some [("zz", "!")])
  = substring 0 (String.length "abcd" - 1) "abcd" +:+ "!" +:+
    substring (String.length "zz" - 1)
      (String.length "abcd" - (String.length "zz" - 1)) "abcd".
Proof.
  assert (H : ¬ Occurs "zz" "abcd")
    by (by apply includes_false_not_occurs).
  split; [exact H |].
  exact (restorePreservedHtml_missing_key "abcd" "zz" "!" H).
Defined.

End PreserveFacts.

(** ** [puppeteer.ts]: finding the browser, sessions, and the callers
    of the retry loops *)
Module Browser.
Import Puppeteer.
Local Open Scope nat_scope.

(** [Deno.build.os] *)
Inductive OS :=
| Darwin
| Linux
| Windows
| OtherOS.

(** What [fetchBrowser] does: it launches a browser, with or without an
    executable path, or it logs a warning and returns [undefined]. *)
Inductive Fetched :=
| Launch (executablePath : option string)
| NotInstalled (warning : string).

(** [!path], for a path that is a string or [undefined]. *)
Definition isFalsy (path : option string) : bool :=
  match path with
  | None => true
  | Some s => String.eqb s ""
  end.

Section FetchBrowser.

(** [which] of [path.ts] and [readRegistryKey] of [windows.ts] are
    imported. *)
Variable which : string → option string.
Variable readRegistryKey : string → string → option string.

Definition findChrome (os : OS) : option string :=
  match os with
  | Darwin => Some "/Applications/Google Chrome.app/Contents/MacOS/Google Chrome"
  | Linux =>
      let path := which "google-chrome" in
      if isFalsy path then which "chromium-browser" else path
  | Windows =>
      let path :=
        readRegistryKey
          "HKLM\SOFTWARE\Microsoft\Windows\CurrentVersion\App Paths\chrome.exe"
          "(Default)" in
      if isFalsy path
      then readRegistryKey "HKCR\ChromeHTML\shell\open\command" "(Default)"
      else path
  | OtherOS => None
  end.

(** [availableRevisions] is what [fetcher.localRevisions()] gives. *)
Definition fetchBrowser (os : OS) (availableRevisions : list string) : Fetched :=
  let isChromiumInstalled := 0 <? length availableRevisions in
  let executablePath := if negb isChromiumInstalled then findChrome os else None in
  if isChromiumInstalled || negb (isFalsy executablePath)
  then Launch executablePath
  else NotInstalled
         "Screenshotting of embedded web content disabled (chromium not installed)".

(** X18.  When a Chromium revision is installed the browser is
    launched without an executable path and [findChrome] plays no part;
    a launch with an executable path happens only without a revision,
    with the path that [findChrome] found, which is not empty; the
    warning is given only without a revision and without a path; and on
    macOS, where [findChrome] returns the fixed path without looking for
    it, there is always a launch. *)
Theorem fetchBrowser_cases (os : OS) (availableRevisions : list string) :
  (availableRevisions ≠ [] → fetchBrowser os availableRevisions = Launch None) ∧
  (∀ path, fetchBrowser os availableRevisions = Launch (Some path) →
           availableRevisions = [] ∧ path ≠ "" ∧ findChrome os = Some path) ∧
  (∀ warning, fetchBrowser os availableRevisions = NotInstalled warning →
              availableRevisions = [] ∧ isFalsy (findChrome os) = true) ∧
  (∀ warning, fetchBrowser Darwin availableRevisions ≠ NotInstalled warning).
Proof.
  unfold fetchBrowser. destruct availableRevisions as [|revision revisions];
    cbn [length Nat.ltb Nat.leb negb orb].
  - split; [done |]. split; [|split].
    + intros path. destruct (findChrome os) as [p|] eqn:Hfind; cbn [isFalsy negb].
      * destruct (String.eqb_spec p "") as [->|Hne]; cbn [negb]; [done |].
        by intros [= <-].
      * done.
    + intros warning. destruct (isFalsy (findChrome os)); [done | done].
    + done.
  - split; [done |]. split; [done |]. split; done.
Qed.

End FetchBrowser.

(** How the call of [fetchBrowser] ends. *)
Inductive BrowserFetch :=
| FetchThrows (error : JsError)
| Fetch (fetched : Fetched).

(** What the browser does in one session: each step may throw. *)
Record Session := {
  newPageError : option JsError;
  gotoError : option JsError;
  closeError : option JsError
}.

(** The page of a session: what [page.$$(selector)] does, an error or
    the element handles it yields, and what [screenshot] does for a
    handle and a path. *)
Record Page := {
  query : string → JsError + list nat;
  screenshot : nat → string → option JsError
}.

(** The first step that throws. *)
Fixpoint firstError (steps : list (option JsError)) : option JsError :=
  match steps with
  | [] => None
  | Some e :: _ => Some e
  | None :: steps' => firstError steps'
  end.

(** [withHeadlessBrowser(fn)]: without a browser [fn] is not run; with
    one, [fn] runs and [browser.close()] follows in the [finally], whose
    error, if any, is the one thrown.  [fn] is given by how it ends. *)
Definition withHeadlessBrowser (fetch : BrowserFetch) (s : Session)
    (fn : option JsError) : Attempt :=
  match fetch with
  | FetchThrows e => Throws e
  | Fetch (NotInstalled _) => NoBrowser
  | Fetch (Launch _) =>
      match closeError s with
      | Some e => Throws e
      | None =>
          match fn with
          | Some e => Throws e
          | None => Finished
          end
      end
  end.

Definition mismatchError (filenames elements : nat) : JsError :=
  {| name := "Error";
     message := "extractImagesFromElements was given " +:+ pretty filenames +:+
                " filenames, but selector yielded " +:+ pretty elements +:+
                " elements." |}.

(** [for (let i = 0; i < elements.length; ++i)
      await elements[i].screenshot({ path: filenames[i] })],
    entered with as many file names as elements: how the loop ends, and
    the screenshots taken. *)
Fixpoint screenshots (page : Page) (elements : list nat) (filenames : list string)
    : option JsError * list (nat * string) :=
  match elements, filenames with
  | element :: elements', filename :: filenames' =>
      match screenshot page element filename with
      | Some e => (Some e, [])
      | None =>
          let '(r, taken) := screenshots page elements' filenames' in
          (r, (element, filename) :: taken)
      end
  | _, _ => (None, [])
  end.

(** The callback that [extractImagesFromElements] passes on. *)
Definition extractImagesCallback (page : Page) (selector : string)
    (filenames : list string) : option JsError * list (nat * string) :=
  match query page selector with
  | inl e => (Some e, [])
  | inr elements =>
      if negb (length elements =? length filenames)
      then (Some (mismatchError (length filenames) (length elements)), [])
      else screenshots page elements filenames
  end.

(** What the world does at one attempt. *)
Record World := {
  fetch : BrowserFetch;
  session : Session;
  page : Page
}.

(** The session of [withPuppeteerBrowserAndPage] and of [inPuppeteer]
    for a callback [f]: [newPage], [goto], then [f]. *)
Definition pageSession (w : World) (f : Page → option JsError) : Attempt :=
  withHeadlessBrowser (fetch w) (session w)
    (firstError [newPageError (session w); gotoError (session w); f (page w)]).

Definition extractImagesFromElements (world : nat → World)
    (selector : string) (filenames : list string) : option Run :=
  withPuppeteerBrowserAndPage
    (λ n, pageSession (world n)
            (λ page, (extractImagesCallback page selector filenames).1)).

(** [extractHtmlFromElements]: the session of [inPuppeteer], in which
    [page.evaluate] ends as [evaluate] says. *)
Definition extractHtmlFromElements (world : nat → World)
    (evaluate : Page → option JsError) : option Run :=
  inPuppeteer (λ n, pageSession (world n) evaluate).

(** *** Properties *)

(** A run that returns did so at an attempt whose [try] body returned,
    after attempts that were all retried. *)
Lemma retryLoop_returned (fuel : nat) (body : nat → TryResult) (a : nat)
    (log : list string) (run : Run) :
  retryLoop fuel body a log = Some run →
  completion run = Returned →
  a < attemptsMade run ≤ maxAttempts ∧
  body (attemptsMade run) = Return.
Proof.
  revert a log. induction fuel as [|fuel IH]; intros a log; [done |].
  cbn [retryLoop]. destruct (Nat.ltb_spec a maxAttempts) as [Hlt|Hge].
  - destruct (body (S a)) as [| |error] eqn:Hbody.
    + intros [= <-] _. cbn. split; [lia | done].
    + intros Hrun Hret. destruct (IH _ _ Hrun Hret) as [? ?]. split; [lia | done].
    + destruct (isAllowed error && (S a <? maxAttempts)).
      * intros Hrun Hret. destruct (IH _ _ Hrun Hret) as [? ?]. split; [lia | done].
      * by intros [= <-].
  - by intros [= <-].
Qed.

Lemma firstError_None (steps : list (option JsError)) :
  firstError steps = None → Forall (λ step, step = None) steps.
Proof.
  induction steps as [|[e|] steps IH]; cbn; [constructor | done |].
  intros H. constructor; [done | by apply IH].
Qed.

Lemma screenshots_None (page : Page) (elements : list nat) (filenames : list string) :
  length elements = length filenames →
  (screenshots page elements filenames).1 = None →
  (screenshots page elements filenames).2 = zip elements filenames ∧
  Forall (λ shot, screenshot page shot.1 shot.2 = None) (zip elements filenames).
Proof.
  revert filenames. induction elements as [|element elements IH];
    intros [|filename filenames]; cbn [length]; try done.
  intros [= Hlen]. cbn [screenshots zip zip_with].
  destruct (screenshot page element filename) eqn:Hshot; [done |].
  specialize (IH filenames Hlen).
  destruct (screenshots page elements filenames) as [r taken].
  cbn [fst snd] in IH |- *. intros Hr. destruct (IH Hr) as [-> Hall].
  split; [done |]. by constructor.
Qed.

(** X15.  When [extractImagesFromElements] returns, its last session
    had a browser that was launched and closed without error, the
    selector yielded exactly as many elements as there are file names,
    and that session took one screenshot of every element, in order,
    each to the file name at the same index. *)
Theorem extractImagesFromElements_returned (world : nat → World)
    (selector : string) (filenames : list string) (run : Run) :
  extractImagesFromElements world selector filenames = Some run →
  completion run = Returned →
  let w := world (attemptsMade run) in
  1 ≤ attemptsMade run ≤ maxAttempts ∧
  (∃ path, fetch w = Fetch (Launch path)) ∧
  closeError (session w) = None ∧
  ∃ elements,
    query (page w) selector = inr elements ∧
    length elements = length filenames ∧
    (extractImagesCallback (page w) selector filenames).2
      = zip elements filenames ∧
    Forall (λ shot, screenshot (page w) shot.1 shot.2 = None)
      (zip elements filenames).
Proof.
  intros Hrun Hret. unfold extractImagesFromElements, withPuppeteerBrowserAndPage in Hrun.
  destruct (retryLoop_returned _ _ _ _ _ Hrun Hret) as [Hk Hbody].
  cbv zeta. split; [lia |].
  unfold withPuppeteerBody, pageSession, withHeadlessBrowser in Hbody.
  set (w := world (attemptsMade run)) in Hbody |- *.
  destruct (fetch w) as [e|[path|warning]] eqn:Hfetch; [done | | done].
  destruct (closeError (session w)) as [e|] eqn:Hclose; [done |].
  destruct (firstError _) as [e|] eqn:Hsteps; [done |].
  split; [by exists path |]. split; [done |].
  apply firstError_None in Hsteps.
  apply Forall_cons in Hsteps as [_ Hsteps].
  apply Forall_cons in Hsteps as [_ Hsteps].
  apply Forall_cons in Hsteps as [Hcallback _].
  unfold extractImagesCallback in Hcallback |- *.
  destruct (query (page w) selector) as [e|elements]; [done |].
  exists elements. split; [done |].
  destruct (Nat.eqb_spec (length elements) (length filenames)) as [Hlen|Hne];
    cbn [negb] in Hcallback |- *; [|done].
  split; [done |]. by apply screenshots_None.
Qed.




(** X17.  Without a browser, that is, when [fetchBrowser] only warns
    at each of the five attempts, [extractImagesFromElements] makes five
    attempts and then throws the internal error, while
    [extractHtmlFromElements] returns at the first attempt without
    having evaluated anything. *)
Theorem no_browser_installed (world : nat → World) (selector : string)
    (filenames : list string) (evaluate : Page → option JsError) :
  (∀ j, 1 ≤ j ≤ maxAttempts → ∃ warning, fetch (world j) = Fetch (NotInstalled warning)) →
  extractImagesFromElements world selector filenames
  = Some {| completion := Thrown internalError; attemptsMade := maxAttempts;
            consoleLog := [] |} ∧
  extractHtmlFromElements world evaluate
  = Some {| completion := Returned; attemptsMade := 1; consoleLog := [] |}.
Proof.
  intros Hnone. split.
  - unfold extractImagesFromElements, withPuppeteerBrowserAndPage.
    assert (Hbody : ∀ j, 0 < j ≤ 0 + maxAttempts →
              withPuppeteerBody
                (λ n, pageSession (world n)
                        (λ page, (extractImagesCallback page selector filenames).1)) j
              = FallThrough).
    { intros j Hj. unfold withPuppeteerBody, pageSession, withHeadlessBrowser.
      destruct (Hnone j) as [warning ->]; [lia | done]. }
    replace (S maxAttempts) with (maxAttempts + 1) by lia.
    rewrite retryLoop_skip; [| lia | intros j Hj; left; by apply Hbody].
    cbn [retryLoop Nat.add]. rewrite Nat.ltb_irrefl. do 2 f_equal.
    cbn [app].
    assert (Hl : Forall (λ j, 0 < j ≤ 0 + maxAttempts) (seq 1 maxAttempts)).
    { apply Forall_forall. intros i Hi%elem_of_seq. lia. }
    induction Hl as [|i l' Hi _ IH]; [done |].
    cbn [flat_map]. by rewrite (Hbody i Hi), IH.
  - unfold extractHtmlFromElements, inPuppeteer. cbn [retryLoop].
    unfold maxAttempts at 1. cbn [Nat.ltb Nat.leb].
    unfold inPuppeteerBody, pageSession, withHeadlessBrowser.
    by destruct (Hnone 1) as [warning ->]; [unfold maxAttempts; lia |].
Qed.

(** *** Sample worlds *)

Definition transientError : JsError :=
  {| name := "Error"; message := "Navigation timeout of 30000 ms exceeded" |}.

Definition quietSession : Session :=
  {| newPageError := None; gotoError := None; closeError := None |}.

Definition twoFigures : Page :=
  {| query := λ _, inr [10; 11]; screenshot := λ _ _, None |}.

Definition launched : World :=
  {| fetch := Fetch (Launch None); session := quietSession; page := twoFigures |}.

Definition disconnected : World :=
  {| fetch := FetchThrows transientError; session := quietSession;
     page := twoFigures |}.

Definition notInstalled : World :=
  {| fetch := Fetch (NotInstalled
       "Screenshotting of embedded web content disabled (chromium not installed)");
     session := quietSession; page := twoFigures |}.

Lemma extractImagesFromElements_returned_witness :
  let world := λ n, if n =? 1 then disconnected else launched in
  let run := {| completion := Returned; attemptsMade := 2;
                consoleLog := [retryMessage transientError 1] |} in
  extractImagesFromElements world "figure" ["a.png"; "b.png"] = Some run ∧
  completion run = Returned ∧
  1 ≤ attemptsMade run ≤ maxAttempts ∧
  (∃ path, fetch (world 2) = Fetch (Launch path)) ∧
  closeError (session (world 2)) = None ∧
  ∃ elements,
    query (page (world 2)) "figure" = inr elements ∧
    length elements = length ["a.png"; "b.png"] ∧
    (extractImagesCallback (page (world 2)) "figure" ["a.png"; "b.png"]).2
      = zip elements ["a.png"; "b.png"] ∧
    Forall (λ shot, screenshot (page (world 2)) shot.1 shot.2 = None)
      (zip elements ["a.png"; "b.png"]).
Proof.
  intros world run.
  assert (H1 : extractImagesFromElements world "figure" ["a.png"; "b.png"] = Some run)
    by reflexivity.
  split; [exact H1 |]. split; [reflexivity |].
  exact (extractImagesFromElements_returned world "figure" ["a.png"; "b.png"]
           run H1 eq_refl).
Defined.


Lemma no_browser_installed_witness :
  let world := λ _ : nat, notInstalled in
  (∀ j, 1 ≤ j ≤ maxAttempts →
        ∃ warning, fetch (world j) = Fetch (NotInstalled warning)) ∧
  extractImagesFromElements world "figure" ["a.png"]
  = Some {| completion := Thrown internalError; attemptsMade := maxAttempts;
            consoleLog := [] |} ∧
  extractHtmlFromElements world (λ _, None)
  = Some {| completion := Returned; attemptsMade := 1; consoleLog := [] |}.
Proof.
  intros world.
  assert (H : ∀ j, 1 ≤ j ≤ maxAttempts →
                ∃ warning, fetch (world j) = Fetch (NotInstalled warning))
    by (intros j _; by eexists).
  split; [exact H |].
  exact (no_browser_installed world "figure" ["a.png"] (λ _, None) H).
Defined.

End Browser.

(** ** [src/command/render/cleanup.ts] *)
Module Cleanup.

(** The flags and format options that [cleanup] reads. *)
Record RenderFlags := {
  debug : option bool;
  flags_selfContained : option bool
}.

Record FormatRender := {
  render_keepMd : option bool;
  render_keepTex : option bool
}.

Record FormatPandoc := { pandoc_selfContained : option bool }.

Record Format := {
  render : FormatRender;
  pandoc : option FormatPandoc
}.

Definition kStandaloneExtensions : list string :=
  [".pdf"; ".epub"; ".fb2"; ".docx"; ".rtf"; ".pptx"; ".odt"; ".ipynb"].

(** The file system calls that [cleanup] makes. *)
Inductive FsOp :=
| CopyFileSync (fromPath toPath : string)
| RemoveIfExists (path : string)
| RemoveSync (path : string) (recursive : bool).

(** The truth value of an optional boolean. *)
Definition isTrue (b : option bool) : bool :=
  match b with
  | Some true => true
  | _ => false
  end.

Section Cleanup.
Local Set Default Proof Using "Type".

(** [extname] of the path module is imported. *)
Variable extname : string → string.

Definition selfContained (flags : RenderFlags) (format : Format)
    (finalOutput : string) : bool :=
  isTrue (flags_selfContained flags) ||
  match pandoc format with
  | Some p => isTrue (pandoc_selfContained p)
  | None => false
  end ||
  bool_decide (extname finalOutput ∈ kStandaloneExtensions).

(** The file system calls of [cleanup], in the order in which they are
    made when none of them throws. *)
Definition cleanup (flags : RenderFlags) (format : Format)
    (mdOutput finalOutput : string) (supporting : option (list string))
    (tempDir : string) (keepMd : option string) : list FsOp :=
  match keepMd with
  | Some keepMd =>
      if negb (String.eqb keepMd "") then
        if isTrue (render_keepMd (render format))
        then [CopyFileSync mdOutput keepMd]
        else if negb (String.eqb keepMd finalOutput)
             then [RemoveIfExists keepMd] else []
      else []
  | None => []
  end ++
  (if negb (isTrue (debug flags)) then [RemoveIfExists mdOutput] else []) ++
  (if negb (isTrue (render_keepMd (render format))) &&
      negb (isTrue (render_keepTex (render format))) &&
      selfContained flags format finalOutput
   then match supporting with
        | Some supporting => (λ path, RemoveSync path true) <$> supporting
        | None => []
        end
   else []) ++
  [RemoveIfExists tempDir].

(** A call that removes [path]. *)
Definition Removes (op : FsOp) (path : string) : Prop :=
  op = RemoveIfExists path ∨ ∃ recursive, op = RemoveSync path recursive.

(** X19.  The final output is never the target of a removal, unless it
    is itself the intermediate markdown, the temporary directory or one
    of the supporting files. *)
Theorem cleanup_keeps_final_output (flags : RenderFlags) (format : Format)
    (mdOutput finalOutput : string) (supporting : option (list string))
    (tempDir : string) (keepMd : option string) (op : FsOp) :
  finalOutput ≠ mdOutput →
  finalOutput ≠ tempDir →
  (∀ paths, supporting = Some paths → finalOutput ∉ paths) →
  op ∈ cleanup flags format mdOutput finalOutput supporting tempDir keepMd →
  ¬ Removes op finalOutput.
Proof.
  intros Hmd Htemp Hsupporting Hop Hremoves. unfold cleanup in Hop.
  rewrite !elem_of_app in Hop. destruct Hop as [Hop|[Hop|[Hop|Hop]]].
  - destruct keepMd as [keep|]; [|by apply elem_of_nil in Hop].
    destruct (String.eqb keep ""); cbn [negb] in Hop; [by apply elem_of_nil in Hop |].
    destruct (isTrue (render_keepMd (render format))).
    + apply list_elem_of_singleton in Hop as ->.
      by destruct Hremoves as [|[? ?]].
    + destruct (String.eqb_spec keep finalOutput) as [|Hne]; cbn [negb] in Hop;
        [by apply elem_of_nil in Hop |].
      apply list_elem_of_singleton in Hop as ->.
      destruct Hremoves as [[=]|[? [=]]]. done.
  - destruct (isTrue (debug flags)); cbn [negb] in Hop; [by apply elem_of_nil in Hop |].
    apply list_elem_of_singleton in Hop as ->.
    destruct Hremoves as [[=]|[? [=]]]. done.
  - destruct (_ && _ && _); [|by apply elem_of_nil in Hop].
    destruct supporting as [paths|]; [|by apply elem_of_nil in Hop].
    apply list_elem_of_fmap_1 in Hop as (path & -> & Hpath).
    destruct Hremoves as [[=]|[? [= ->]]]. by apply (Hsupporting paths).
  - apply list_elem_of_singleton in Hop as ->.
    destruct Hremoves as [[=]|[? [=]]]. done.
Qed.

(** X20.  With [keep-md] or [keep-tex] set, no supporting file is
    removed, self-contained or not: [cleanup] makes no call of
    [Deno.removeSync] at all. *)
Theorem cleanup_keeps_supporting (flags : RenderFlags) (format : Format)
    (mdOutput finalOutput : string) (supporting : option (list string))
    (tempDir : string) (keepMd : option string) (op : FsOp) :
  isTrue (render_keepMd (render format)) = true ∨
  isTrue (render_keepTex (render format)) = true →
  op ∈ cleanup flags format mdOutput finalOutput supporting tempDir keepMd →
  ∀ path recursive, op ≠ RemoveSync path recursive.
Proof.
  intros Hkeep Hop path recursive ->. unfold cleanup in Hop.
  rewrite !elem_of_app in Hop. destruct Hop as [Hop|[Hop|[Hop|Hop]]].
  - destruct keepMd as [keep|]; [|by apply elem_of_nil in Hop].
    destruct (negb _); [|by apply elem_of_nil in Hop].
    destruct (isTrue _); [by apply list_elem_of_singleton in Hop |].
    destruct (negb _); [by apply list_elem_of_singleton in Hop |
                        by apply elem_of_nil in Hop].
  - destruct (negb _); [by apply list_elem_of_singleton in Hop |
                        by apply elem_of_nil in Hop].
  - destruct Hkeep as [H|H]; rewrite H in Hop; cbn [negb andb] in Hop;
      [|rewrite andb_false_r in Hop]; by apply elem_of_nil in Hop.
  - by apply list_elem_of_singleton in Hop.
Qed.

(** X21.  For an output whose extension is one of the standalone
    extensions, such as [.pdf], and with [keep-md] and [keep-tex] unset,
    every supporting file is removed, recursively, also when nothing
    asked for a self-contained output. *)
Theorem cleanup_standalone_removes_supporting (flags : RenderFlags)
    (format : Format) (mdOutput finalOutput : string) (paths : list string)
    (tempDir : string) (keepMd : option string) (path : string) :
  extname finalOutput ∈ kStandaloneExtensions →
  isTrue (render_keepMd (render format)) = false →
  isTrue (render_keepTex (render format)) = false →
  path ∈ paths →
  RemoveSync path true
    ∈ cleanup flags format mdOutput finalOutput (Some paths) tempDir keepMd.
Proof.
  intros Hext Hmd Htex Hpath. unfold cleanup, selfContained.
  rewrite Hmd, Htex, (bool_decide_eq_true_2 _ Hext), !orb_true_r.
  cbn [negb andb]. rewrite !elem_of_app. right. right. left.
  by apply (list_elem_of_fmap_2 (λ path, RemoveSync path true)).
Qed.

(** X22.  Copy before remove: when the markdown is to be kept and the
    run is not a debug run, the intermediate markdown is first copied to
    the keep path and only then removed. *)
Theorem cleanup_copies_before_removing (flags : RenderFlags) (format : Format)
    (mdOutput finalOutput : string) (supporting : option (list string))
    (tempDir keepMd : string) :
  keepMd ≠ "" →
  isTrue (render_keepMd (render format)) = true →
  isTrue (debug flags) = false →
  cleanup flags format mdOutput finalOutput supporting tempDir (Some keepMd)
  = [CopyFileSync mdOutput keepMd; RemoveIfExists mdOutput;
     RemoveIfExists tempDir].
Proof.
  intros Hkeep Hmd Hdebug. unfold cleanup. rewrite Hmd, Hdebug.
  destruct (String.eqb_spec keepMd "") as [|_]; [done |]. done.
Qed.

End Cleanup.

Definition sampleExtname (path : string) : string :=
  if String.eqb path "report.pdf" then ".pdf" else ".html".

Definition plainFormat : Format :=
  {| render := {| render_keepMd := None; render_keepTex := None |};
     pandoc := None |}.

Definition keepMdFormat : Format :=
  {| render := {| render_keepMd := Some true; render_keepTex := None |};
     pandoc := Some {| pandoc_selfContained := Some true |} |}.

Definition plainFlags : RenderFlags :=
  {| debug := None; flags_selfContained := None |}.

Example cleanup_pdf :
  cleanup sampleExtname plainFlags plainFormat "report.knitr-md" "report.pdf"
    (Some ["report_files"]) "/tmp/quarto1" (Some "report.md")
  = [RemoveIfExists "report.md"; RemoveIfExists "report.knitr-md";
     RemoveSync "report_files" true; RemoveIfExists "/tmp/quarto1"].
Proof. reflexivity. Qed.

Lemma cleanup_keeps_final_output_witness :
  "report.pdf" ≠ "report.knitr-md" ∧
  "report.pdf" ≠ "/tmp/quarto1" ∧
  RemoveIfExists "report.md"
    ∈ cleanup sampleExtname plainFlags plainFormat "report.knitr-md" "report.pdf"
        (Some ["report_files"]) "/tmp/quarto1" (Some "report.md") ∧
  ¬ Removes (RemoveIfExists "report.md") "report.pdf".
Proof.
  assert (H1 : "report.pdf" ≠ "report.knitr-md") by discriminate.
  assert (H2 : "report.pdf" ≠ "/tmp/quarto1") by discriminate.
  assert (H3 : ∀ paths, Some ["report_files"] = Some paths → "report.pdf" ∉ paths).
  { intros paths [= <-]. intros Hin. by apply list_elem_of_singleton in Hin. }
  assert (H4 : RemoveIfExists "report.md"
                 ∈ cleanup sampleExtname plainFlags plainFormat "report.knitr-md"
                     "report.pdf" (Some ["report_files"]) "/tmp/quarto1"
                     (Some "report.md"))
    by (apply elem_of_cons; by left).
  split; [exact H1 |]. split; [exact H2 |]. split; [exact H4 |].
  exact (cleanup_keeps_final_output sampleExtname plainFlags plainFormat
           "report.knitr-md" "report.pdf" (Some ["report_files"]) "/tmp/quarto1"
           (Some "report.md") _ H1 H2 H3 H4).
Defined.

Lemma cleanup_keeps_supporting_witness :
  let trace := cleanup sampleExtname plainFlags keepMdFormat "report.knitr-md"
                 "report.pdf" (Some ["report_files"]) "/tmp/quarto1"
                 (Some "report.md") in
  isTrue (render_keepMd (render keepMdFormat)) = true ∧
  RemoveIfExists "/tmp/quarto1" ∈ trace ∧
  ∀ path recursive, RemoveIfExists "/tmp/quarto1" ≠ RemoveSync path recursive.
Proof.
  intros trace.
  assert (H1 : isTrue (render_keepMd (render keepMdFormat)) = true) by reflexivity.
  assert (H2 : RemoveIfExists "/tmp/quarto1" ∈ trace).
  { subst trace. vm_compute. do 2 (apply elem_of_cons; right).
    apply elem_of_cons. by left. }
  split; [exact H1 |]. split; [exact H2 |].
  exact (cleanup_keeps_supporting sampleExtname plainFlags keepMdFormat
           "report.knitr-md" "report.pdf" (Some ["report_files"]) "/tmp/quarto1"
           (Some "report.md") _ (or_introl H1) H2).
Defined.

Lemma cleanup_standalone_removes_supporting_witness :
  sampleExtname "report.pdf" ∈ kStandaloneExtensions ∧
  "report_files" ∈ ["report_files"] ∧
  RemoveSync "report_files" true
    ∈ cleanup sampleExtname plainFlags plainFormat "report.knitr-md" "report.pdf"
        (Some ["report_files"]) "/tmp/quarto1" None.
Proof.
  assert (H1 : sampleExtname "report.pdf" ∈ kStandaloneExtensions)
    by (apply elem_of_cons; by left).
  assert (H2 : "report_files" ∈ ["report_files"]) by (apply elem_of_cons; by left).
  split; [exact H1 |]. split; [exact H2 |].
  exact (cleanup_standalone_removes_supporting sampleExtname plainFlags plainFormat
           "report.knitr-md" "report.pdf" ["report_files"] "/tmp/quarto1" None
           "report_files" H1 eq_refl eq_refl H2).
Defined.

Lemma cleanup_copies_before_removing_witness :
  "report.md" ≠ "" ∧
  isTrue (render_keepMd (render keepMdFormat)) = true ∧
  isTrue (debug plainFlags) = false ∧
  cleanup sampleExtname plainFlags keepMdFormat "report.knitr-md" "report.html"
    (Some ["report_files"]) "/tmp/quarto1" (Some "report.md")
  = [CopyFileSync "report.knitr-md" "report.md"; RemoveIfExists "report.knitr-md";
     RemoveIfExists "/tmp/quarto1"].
Proof.
  assert (H1 : "report.md" ≠ "") by discriminate.
  split; [exact H1 |]. split; [reflexivity |]. split; [reflexivity |].
  exact (cleanup_copies_before_removing sampleExtname plainFlags keepMdFormat
           "report.knitr-md" "report.html" (Some ["report_files"]) "/tmp/quarto1"
           "report.md" H1 eq_refl eq_refl).
Defined.

End Cleanup.

(** ** [resources.ts]: resources named in the metadata *)
Module Resources.

(** A value read from YAML metadata; numbers are the integers. *)
#[warnings="-register-all"]
Inductive JsValue :=
| JsUndefined
| JsNull
| JsBool (b : bool)
| JsNumber (n : Z)
| JsString (s : string)
| JsArray (items : list JsValue)
| JsObject (fields : list (string * JsValue)).

(** The truth value of a value. *)
Definition truthy (v : JsValue) : bool :=
  match v with
  | JsUndefined | JsNull => false
  | JsBool b => b
  | JsNumber n => negb (n =? 0)
  | JsString s => negb (String.eqb s "")
  | JsArray _ | JsObject _ => true
  end.

Record ResolvedPathGlobs := {
  include : list string;
  exclude : list string
}.

Section Resources.
Local Set Default Proof Using "Type".

(** How a number is written is left to [numberToString];
    [resolvePathGlobs] of [core/path.ts], [engineIgnoreGlobs] of
    [execute/engine.ts] and [kQuartoScratch] are imported. *)
Variable numberToString : Z → string.
Variable resolvePathGlobs : string → list string → list string → ResolvedPathGlobs.
Variable engineIgnoreGlobs : list string.
Variable kQuartoScratch : string.

(** [String(v)]; in the elements of an array that is turned into a
    string, [null] and [undefined] give the empty string. *)
Fixpoint toString (v : JsValue) : string :=
  match v with
  | JsUndefined => "undefined"
  | JsNull => "null"
  | JsBool true => "true"
  | JsBool false => "false"
  | JsNumber n => numberToString n
  | JsString s => s
  | JsArray items =>
      String.concat ","
        (List.map (λ item, match item with
                           | JsUndefined | JsNull => ""
                           | _ => toString item
                           end) items)
  | JsObject _ => "[object Object]"
  end.

Definition resourcesFromMetadata (resourcesMetadata : JsValue) : list string :=
  if truthy resourcesMetadata then
    match resourcesMetadata with
    | JsArray items => List.map toString items
    | _ => [toString resourcesMetadata]
    end
  else [].

Definition ojsResources (rootDir markdown : string) : list string := [].

Definition resolveFileResources (rootDir markdown : string)
    (globs : list string) : ResolvedPathGlobs :=
  let ignore := (engineIgnoreGlobs ++ [kQuartoScratch +:+ "/"])
                ++ ["**/.*"; "**/.*/**"] in
  let resources := resolvePathGlobs rootDir globs ignore in
  if (0 <? String.length markdown)%nat
  then {| include := include resources ++ ojsResources rootDir markdown;
          exclude := exclude resources |}
  else resources.

(** X23.  A list of strings in the metadata is returned as it is, empty
    strings included, and a single non-empty string as the list of that
    string. *)
Theorem resourcesFromMetadata_strings (files : list string) (file : string) :
  resourcesFromMetadata (JsArray (JsString <$> files)) = files ∧
  (file ≠ "" → resourcesFromMetadata (JsString file) = [file]).
Proof.
  split.
  - unfold resourcesFromMetadata. cbn [truthy].
    induction files as [|f files IH]; [done |].
    cbn [fmap list_fmap List.map toString]. f_equal. apply IH.
  - intros Hfile. unfold resourcesFromMetadata. cbn [truthy].
    by destruct (String.eqb_spec file "").
Qed.

(** X24.  A scalar that is falsy ([undefined], [null], [false], [0],
    the empty string) gives no resource, whereas an array gives one
    resource per element, falsy elements included. *)
Theorem resourcesFromMetadata_length (v : JsValue) :
  length (resourcesFromMetadata v)
  = match v with
    | JsArray items => length items
    | _ => if truthy v then 1%nat else 0%nat
    end.
Proof.
  unfold resourcesFromMetadata.
  destruct v as [| |b|n|s|items|fields]; cbn [truthy]; try done.
  - by destruct b.
  - by destruct (negb (n =? 0)).
  - by destruct (negb (String.eqb s "")).
  - apply length_map.
Qed.

(** X25.  The markdown of the document adds no resource:
    [resolveFileResources] returns what [resolvePathGlobs] finds for the
    globs, with the engine's ignore globs, the scratch directory and the
    two hidden-file patterns ignored, whatever the markdown is. *)
Theorem resolveFileResources_ignores_markdown (rootDir markdown : string)
    (globs : list string) :
  resolveFileResources rootDir markdown globs
  = resolvePathGlobs rootDir globs
      (engineIgnoreGlobs ++ [kQuartoScratch +:+ "/"; "**/.*"; "**/.*/**"]).
Proof.
  unfold resolveFileResources, ojsResources. rewrite <- app_assoc. cbn [app].
  destruct (0 <? String.length markdown)%nat; [|done].
  rewrite app_nil_r. by destruct (resolvePathGlobs _ _ _).
Qed.

End Resources.

Lemma resourcesFromMetadata_strings_witness :
  "styles.css" ≠ "" ∧
  resourcesFromMetadata (λ n, pretty n) (JsArray (JsString <$> ["a.csv"; ""; "img/*.png"]))
  = ["a.csv"; ""; "img/*.png"] ∧
  resourcesFromMetadata (λ n, pretty n) (JsString "styles.css") = ["styles.css"].
Proof.
  assert (H : "styles.css" ≠ "") by discriminate.
  split; [exact H |].
  destruct (resourcesFromMetadata_strings (λ n, pretty n)
              ["a.csv"; ""; "img/*.png"] "styles.css") as [H1 H2].
  split; [exact H1 | exact (H2 H)].
Defined.

Example resources_mixed_array :
  resourcesFromMetadata (λ n, pretty n)
    (JsArray [JsNumber 0; JsBool false; JsNull; JsArray [JsNull; JsString "x"]])
  = ["0"; "false"; "null"; ",x"].
Proof. reflexivity. Qed.

End Resources.

(** ** [getEnv] *)
Module Env.

Inductive Result (A : Type) :=
| Returns (value : A)
| ThrowsError (message : string).
Arguments Returns {A} value.
Arguments ThrowsError {A} message.

(** [env name] is what [Deno.env.get(name)] gives. *)
Definition getEnv (env : string → option string) (name : string)
    (defaultValue : option string) : Result string :=
  let value := env name in
  let missing := match value with
                 | None => true
                 | Some v => String.eqb v ""
                 end in
  if missing then
    match defaultValue with
    | None => ThrowsError ("Missing environment variable: " +:+ name)
    | Some d => Returns d
    end
  else Returns (default "" value).




Example getEnv_empty_is_missing :
  getEnv (λ _, Some "") "QUARTO_VERSION" None
  = ThrowsError "Missing environment variable: QUARTO_VERSION" ∧
  getEnv (λ _, Some "") "QUARTO_VERSION" (Some "") = Returns "".
Proof. split; reflexivity. Qed.

End Env.

(** ** [layout.lua]: cells laid out in rows of [layoutCols] *)
Module Layout.

Section LayoutCells.
Local Set Default Proof Using "Type".

Variable Cell : Type.

(** [rows[#rows]:insert(cell)]; indexing fails when there is no row. *)
Definition insertInLastRow (rows : list (list Cell)) (cell : Cell)
    : option (list (list Cell)) :=
  match last rows with
  | None => None
  | Some row => Some (<[pred (length rows) := row ++ [cell]]> rows)
  end.

(** The loop of [layoutCells] over [ipairs(cells)] for an integer
    [layoutCols], from index [i] on; [math.fmod] of two integers is the
    remainder of the truncated division and raises an error for a zero
    divisor. *)
Fixpoint layoutColsLoop (layoutCols i : Z) (cells : list Cell)
    (rows : list (list Cell)) : option (list (list Cell)) :=
  match cells with
  | [] => Some rows
  | cell :: cells =>
      if layoutCols =? 0 then None
      else
        let rows := if Z.rem (i - 1) layoutCols =? 0
                    then rows ++ [[]] else rows in
        match insertInLastRow rows cell with
        | None => None
        | Some rows => layoutColsLoop layoutCols (i + 1) cells rows
        end
  end.

Definition layoutByCols (layoutCols : Z) (cells : list Cell)
    : option (list (list Cell)) :=
  layoutColsLoop layoutCols 1 cells [].

(** The rows after [p] cells: full rows of [layoutCols] cells, then a
    last row that is not empty. *)
Definition RowsOf (layoutCols : Z) (p : nat) (rows : list (list Cell)) : Prop :=
  (p = 0%nat ∧ rows = []) ∨
  ∃ full row, rows = full ++ [row] ∧
    Forall (λ r, Z.of_nat (length r) = layoutCols) full ∧
    1 ≤ Z.of_nat (length row) ≤ layoutCols ∧
    Z.of_nat p = layoutCols * Z.of_nat (length full) + Z.of_nat (length row).

Lemma insertInLastRow_snoc (full : list (list Cell)) (row : list Cell)
    (cell : Cell) :
  insertInLastRow (full ++ [row]) cell = Some (full ++ [row ++ [cell]]).
Proof.
  unfold insertInLastRow. rewrite last_snoc, length_app. cbn [length].
  replace (pred (length full + 1))%nat with (length full + 0)%nat by lia.
  by rewrite insert_app_r.
Qed.

Lemma rem_full_row (c k m : Z) :
  0 < c → 0 ≤ k → 1 ≤ m ≤ c →
  (Z.rem (c * k + m) c =? 0) = (m =? c).
Proof.
  intros Hc Hk Hm. rewrite Z.rem_mod_nonneg by nia.
  rewrite Z.add_comm, Z.mul_comm, Z.mod_add by lia.
  destruct (Z.eqb_spec m c) as [->|Hne].
  - rewrite Z.mod_same by lia. done.
  - rewrite Z.mod_small by lia. apply Z.eqb_neq. lia.
Qed.

Lemma layoutColsLoop_rows (layoutCols : Z) (cells : list Cell) :
  0 < layoutCols →
  ∀ (p : nat) (rows : list (list Cell)),
    RowsOf layoutCols p rows →
    ∃ rows', layoutColsLoop layoutCols (Z.of_nat p + 1) cells rows = Some rows' ∧
             concat rows' = concat rows ++ cells ∧
             RowsOf layoutCols (p + length cells) rows'.
Proof.
  intros Hc. induction cells as [|cell cells IH]; intros p rows Hrows.
  - exists rows. cbn [layoutColsLoop length]. rewrite app_nil_r, Nat.add_0_r. done.
  - cbn [layoutColsLoop length].
    replace (layoutCols =? 0) with false by (symmetry; apply Z.eqb_neq; lia).
    replace (Z.of_nat p + 1 - 1) with (Z.of_nat p) by lia.
    assert (Hnext : ∀ rows1,
              concat rows1 = concat rows ++ [cell] →
              RowsOf layoutCols (S p) rows1 →
              ∃ rows', layoutColsLoop layoutCols (Z.of_nat p + 1 + 1) cells rows1
                       = Some rows' ∧
                       concat rows' = concat rows ++ cell :: cells ∧
                       RowsOf layoutCols (p + S (length cells)) rows').
    { intros rows1 Hconcat Hrows1.
      destruct (IH (S p) rows1 Hrows1) as (rows' & Hloop & Hcat & Hinv).
      exists rows'. split; [|split].
      - rewrite <- Hloop. f_equal. lia.
      - rewrite Hcat, Hconcat, <- app_assoc. done.
      - replace (p + S (length cells))%nat with (S p + length cells)%nat by lia.
        done. }
    destruct Hrows as [[-> ->]|(full & row & -> & Hfull & Hrow & Hp)].
    + change (Z.rem (Z.of_nat 0) layoutCols) with (Z.rem 0 layoutCols).
      rewrite Z.rem_0_l by lia. cbn [Z.eqb app].
      change (insertInLastRow [[]] cell) with (Some [[cell]]).
      apply Hnext; [done |]. right. exists [], [cell].
      split; [done |]. split; [constructor |]. cbn [length]. lia.
    + replace (Z.rem (Z.of_nat p) layoutCols =? 0)
        with (Z.of_nat (length row) =? layoutCols)
        by (rewrite Hp; symmetry; apply rem_full_row; lia).
      destruct (Z.eqb_spec (Z.of_nat (length row)) layoutCols) as [Hlen|Hlen].
      * rewrite (insertInLastRow_snoc (full ++ [row]) [] cell). cbn [app].
        apply Hnext.
        -- rewrite !concat_app. cbn [concat]. by rewrite !app_nil_r.
        -- right. exists (full ++ [row]), [cell]. split; [done |].
           split; [apply Forall_app; split; [done | by constructor] |].
           rewrite length_app. cbn [length]. lia.
      * rewrite insertInLastRow_snoc. apply Hnext.
        -- rewrite !concat_app. cbn [concat]. by rewrite !app_nil_r, <- app_assoc.
        -- right. exists full, (row ++ [cell]). split; [done |].
           split; [done |]. rewrite length_app. cbn [length]. lia.
Qed.

(** X27.  For a positive number of columns the loop of [layoutCells]
    puts the cells, in their order and each one once, in rows: no row is
    empty, no row has more than [layoutCols] cells, and every row but
    the last has exactly [layoutCols] cells. *)
Theorem layoutByCols_rows (layoutCols : Z) (cells : list Cell) :
  0 < layoutCols →
  ∃ rows, layoutByCols layoutCols cells = Some rows ∧
          concat rows = cells ∧
          Forall (λ row, 1 ≤ Z.of_nat (length row) ≤ layoutCols) rows ∧
          ∀ (r : nat) (row : list Cell),
            rows !! r = Some row → (r + 1 < length rows)%nat →
            Z.of_nat (length row) = layoutCols.
Proof.
  intros Hc.
  destruct (layoutColsLoop_rows layoutCols cells Hc 0 [])
    as (rows & Hloop & Hcat & Hinv); [by left |].
  exists rows. split; [exact Hloop |]. split; [exact Hcat |].
  destruct Hinv as [[_ ->]|(full & row & -> & Hfull & Hrow & _)].
  - split; [constructor |]. intros r row Hr. by rewrite lookup_nil in Hr.
  - split.
    + apply Forall_app. split; [|by constructor].
      eapply Forall_impl; [exact Hfull |]. cbn. intros r Hr. lia.
    + intros r row' Hr Hlt. rewrite length_app in Hlt. cbn [length] in Hlt.
      rewrite lookup_app_l in Hr by lia.
      rewrite Forall_lookup in Hfull. exact (Hfull r row' Hr).
Qed.

(** With [layoutCols] zero the loop fails at the first cell. *)
Lemma layoutByCols_zero (cells : list Cell) :
  layoutByCols 0 cells = (if cells is [] then Some [] else None).
Proof. by destruct cells. Qed.

End LayoutCells.

Example layoutByCols_five_in_two :
  layoutByCols nat 2 [1; 2; 3; 4; 5]%nat = Some [[1; 2]; [3; 4]; [5]]%nat.
Proof. reflexivity. Qed.

Lemma layoutByCols_rows_witness :
  0 < 2 ∧
  ∃ rows, layoutByCols nat 2 [1; 2; 3; 4; 5]%nat = Some rows ∧
          concat rows = [1; 2; 3; 4; 5]%nat ∧
          Forall (λ row, 1 ≤ Z.of_nat (length row) ≤ 2) rows ∧
          ∀ (r : nat) (row : list nat),
            rows !! r = Some row → (r + 1 < length rows)%nat →
            Z.of_nat (length row) = 2.
Proof.
  assert (H : 0 < 2) by lia.
  split; [exact H |].
  exact (layoutByCols_rows nat 2 [1; 2; 3; 4; 5]%nat H).
Defined.

End Layout.
